(** * abswt.elements: parameterised locators and the fluent finder

    A shallow embedding of [src/abswt/elements.py]:

    - [PyStr]: the Python [str] builtins the module calls ([find] of a
      character from a start index, slicing, [repr], [format]);
    - [ParameterExtractor]: [__find_param] and the [while] loop of
      [get_parameters];
    - [Locator]: [get_by] and the private helpers behind it;
    - [FluentFinder]: [find_element] and [find_elements].

    Python integers are [Z]; a [str] is a [string] whose characters are read
    as the code points U+0000..U+00FF; a [**kwargs] dictionary is a
    [gmap string pyobj]. *)

From Stdlib Require Import ZArith String Ascii List Bool Lia.
From Stdlib Require Import DecimalString.
From stdpp Require Import gmap strings.
Import ListNotations.

#[local] Open Scope string_scope.
#[local] Open Scope Z_scope.

(** ** Python values, exceptions and outcomes *)

Inductive pyobj : Type :=
| PyStr (s : string)
| PyInt (z : Z)
| PyBool (b : bool)
| PyNone.

(** [str(v)] *)
Definition py_str (v : pyobj) : string :=
  match v with
  | PyStr s => s
  | PyInt z => NilEmpty.string_of_int (Z.to_int z)
  | PyBool true => "True"
  | PyBool false => "False"
  | PyNone => "None"
  end.

Inductive exn : Type :=
| ValueError (msg : string)
| KeyError (key : string)
| IndexError (index : Z).

(** What a call does: it returns, it raises, or it leaves the fragment of
    Python that is modelled here ([Unmodelled]: attribute and item access
    inside a replacement field, [!r]/[!a] conversions, non-empty format
    specifications; their result depends on the object protocol of the
    value). *)
Inductive outcome (A : Type) : Type :=
| Return (a : A)
| Raise (e : exn)
| Unmodelled.

Arguments Return {A} a.
Arguments Raise {A} e.
Arguments Unmodelled {A}.

Definition bind {A B : Type} (m : outcome A) (k : A -> outcome B) : outcome B :=
  match m with
  | Return a => k a
  | Raise e => Raise e
  | Unmodelled => Unmodelled
  end.

(** ** The [str] builtins *)

Module PyStr.

Fixpoint str_drop (n : nat) (s : string) : string :=
  match n, s with
  | O, _ => s
  | S _, EmptyString => EmptyString
  | S n', String _ s' => str_drop n' s'
  end.

Fixpoint str_take (n : nat) (s : string) : string :=
  match n, s with
  | O, _ => EmptyString
  | S _, EmptyString => EmptyString
  | S n', String a s' => String a (str_take n' s')
  end.

(** index of the first occurrence of [c] in [s] *)
Fixpoint first_index (c : ascii) (s : string) : option nat :=
  match s with
  | EmptyString => None
  | String a s' =>
      if Ascii.eqb a c then Some O else option_map S (first_index c s')
  end.

(** a negative index counts from the end, and stops at the start *)
Definition adjust_start (len start : Z) : Z :=
  if start <? 0 then Z.max (start + len) 0 else start.

(** [s.find(c, start)] for a one-character [c]: the lowest index at or after
    [start] that holds [c], and [-1] when there is none. *)
Definition find (s : string) (c : ascii) (start : Z) : Z :=
  let len := Z.of_nat (String.length s) in
  let start' := adjust_start len start in
  if len <? start' then -1
  else
    match first_index c (str_drop (Z.to_nat start') s) with
    | Some k => start' + Z.of_nat k
    | None => -1
    end.

Definition clamp (len i : Z) : Z :=
  if i <? 0 then Z.max (i + len) 0 else Z.min i len.

(** [s[lo:hi]] *)
Definition slice (s : string) (lo hi : Z) : string :=
  let len := Z.of_nat (String.length s) in
  let lo' := clamp len lo in
  let hi' := clamp len hi in
  if lo' <? hi'
  then str_take (Z.to_nat (hi' - lo')) (str_drop (Z.to_nat lo') s)
  else EmptyString.


(** *** [repr] of a [str] and of a list of [str] *)

Definition squote : ascii := "'"%char.
Definition dquote : ascii := Ascii false true false false false true false false.
Definition backslash : ascii := "\"%char.

Fixpoint contains (c : ascii) (s : string) : bool :=
  match s with
  | EmptyString => false
  | String a s' => Ascii.eqb a c || contains c s'
  end.

Definition hex_digit (n : nat) : ascii :=
  nth n (list_ascii_of_string "0123456789abcdef") "0"%char.

(** [\xhh] *)
Definition hex_escape (n : nat) : string :=
  String backslash
    (String "x" (String (hex_digit (n / 16)) (String (hex_digit (n mod 16)) EmptyString))).

(** [str.isprintable] on U+0080..U+00FF: the C1 controls, the no-break space
    and the soft hyphen are not printable. *)
Definition printable_latin1 (n : nat) : bool :=
  negb ((n <=? 160)%nat || (n =? 173)%nat).

Definition repr_char (quote a : ascii) : string :=
  let n := nat_of_ascii a in
  if Ascii.eqb a quote || Ascii.eqb a backslash
  then String backslash (String a EmptyString)
  else if (n =? 9)%nat then String backslash "t"
  else if (n =? 10)%nat then String backslash "n"
  else if (n =? 13)%nat then String backslash "r"
  else if (n <? 32)%nat || (n =? 127)%nat then hex_escape n
  else if (n <? 127)%nat then String a EmptyString
  else if printable_latin1 n then String a EmptyString
  else hex_escape n.

Fixpoint repr_body (quote : ascii) (s : string) : string :=
  match s with
  | EmptyString => EmptyString
  | String a s' => repr_char quote a ++ repr_body quote s'
  end.

(** [repr(s)]: single quotes, unless [s] holds a single quote and no double
    quote. *)
Definition repr (s : string) : string :=
  let quote := if contains squote s && negb (contains dquote s)
               then dquote else squote in
  String quote (repr_body quote s ++ String quote EmptyString).

Fixpoint join (sep : string) (l : list string) : string :=
  match l with
  | [] => EmptyString
  | [x] => x
  | x :: rest => x ++ sep ++ join sep rest
  end.

(** [repr(l)], which is also [str(l)], for a list of [str] *)
Definition repr_list (l : list string) : string :=
  "[" ++ join ", " (map repr l) ++ "]".

(** *** [str.format] with keyword arguments

    The scanner reads the format string one character at a time, as the
    markup iterator and the field parser of CPython do: literal text with the
    escapes [{{] and [}}], then a replacement field made of a field name, an
    optional [!conversion] and an optional [:format_spec]. A field is
    rendered as soon as its closing brace is read, so the leftmost error is
    the one raised. *)

Inductive scan_state : Type :=
| InLiteral
| InName (name : string)
| InIndex (name : string)
| AtConversion (name : string)
| AfterConversion (name : string) (conv : ascii)
| InSpec (name : string) (conv : option ascii) (spec : string) (depth : nat).

Definition push (s : string) (c : ascii) : string := s ++ String c EmptyString.

Definition is_digit (a : ascii) : bool :=
  let n := nat_of_ascii a in (48 <=? n)%nat && (n <=? 57)%nat.

Fixpoint all_digits (s : string) : bool :=
  match s with
  | EmptyString => true
  | String a s' => is_digit a && all_digits s'
  end.

Fixpoint decimal_value (acc : Z) (s : string) : Z :=
  match s with
  | EmptyString => acc
  | String a s' => decimal_value (10 * acc + (Z.of_nat (nat_of_ascii a) - 48)) s'
  end.

(** the largest [Py_ssize_t] of a 64-bit build *)
Definition ssize_t_max : Z := 2 ^ 63 - 1.

(** the part of a field name before the first [.] or [[], and the rest *)
Fixpoint split_first (name : string) : string * string :=
  match name with
  | EmptyString => (EmptyString, EmptyString)
  | String c name' =>
      if Ascii.eqb c "." || Ascii.eqb c "["
      then (EmptyString, name)
      else let '(first, rest) := split_first name' in (String c first, rest)
  end.

Definition is_empty (s : string) : bool :=
  match s with EmptyString => true | String _ _ => false end.

(** The object a field name stands for. [format] is called with keyword
    arguments only, so an empty or numeric first part indexes an empty
    tuple of positional arguments. *)
Definition get_field_object (kwargs : gmap string pyobj) (name : string)
    : outcome pyobj :=
  let '(first, rest) := split_first name in
  if is_empty first then Raise (IndexError 0)
  else if all_digits first then
    if decimal_value 0 first >? ssize_t_max
    then Raise (ValueError "Too many decimal digits in format string")
    else Raise (IndexError (decimal_value 0 first))
  else
    match kwargs !! first with
    | None => Raise (KeyError first)
    | Some v => if is_empty rest then Return v else Unmodelled
    end.

Definition hex_short (n : nat) : string :=
  if (n <? 16)%nat then String (hex_digit n) EmptyString
  else String (hex_digit (n / 16)) (String (hex_digit (n mod 16)) EmptyString).

(** [format] keeps the character NUL for a field without conversion, so a
    NUL read after the exclamation mark converts nothing. *)
Definition do_conversion (v : pyobj) (conv : ascii) : outcome pyobj :=
  if Ascii.eqb conv Ascii.zero then Return v
  else if Ascii.eqb conv "s" then Return (PyStr (py_str v))
  else if Ascii.eqb conv "r" || Ascii.eqb conv "a" then Unmodelled
  else
    let n := nat_of_ascii conv in
    if (32 <? n)%nat && (n <? 127)%nat
    then Raise (ValueError ("Unknown conversion specifier " ++ String conv EmptyString))
    else Raise (ValueError ("Unknown conversion specifier " ++ String backslash "x" ++ hex_short n)).

(** [format(v, spec)] *)
Definition format_value (v : pyobj) (spec : string) : outcome string :=
  if is_empty spec then Return (py_str v) else Unmodelled.

Definition render_field (kwargs : gmap string pyobj) (name : string)
    (conv : option ascii) (spec : string) : outcome string :=
  bind (get_field_object kwargs name) (fun obj =>
  bind (match conv with
        | None => Return obj
        | Some c => do_conversion obj c
        end) (fun obj' =>
  format_value obj' spec)).

Definition emit (c : ascii) (r : outcome string) : outcome string :=
  bind r (fun s => Return (String c s)).

Fixpoint format_scan (kwargs : gmap string pyobj) (st : scan_state)
    (s : string) {struct s} : outcome string :=
  match st, s with
  | InLiteral, EmptyString => Return EmptyString
  | InLiteral, String c rest =>
      if Ascii.eqb c "{" then
        match rest with
        | EmptyString =>
            Raise (ValueError "Single '{' encountered in format string")
        | String c' rest' =>
            if Ascii.eqb c' "{"
            then emit "{" (format_scan kwargs InLiteral rest')
            else format_scan kwargs (InName EmptyString) rest
        end
      else if Ascii.eqb c "}" then
        match rest with
        | EmptyString =>
            Raise (ValueError "Single '}' encountered in format string")
        | String c' rest' =>
            if Ascii.eqb c' "}"
            then emit "}" (format_scan kwargs InLiteral rest')
            else Raise (ValueError "Single '}' encountered in format string")
        end
      else emit c (format_scan kwargs InLiteral rest)
  | InName _, EmptyString =>
      Raise (ValueError "expected '}' before end of string")
  | InName name, String c rest =>
      if Ascii.eqb c "{" then
        Raise (ValueError "unexpected '{' in field name")
      else if Ascii.eqb c "[" then
        format_scan kwargs (InIndex (push name c)) rest
      else if Ascii.eqb c "}" then
        bind (render_field kwargs name None EmptyString) (fun v =>
        bind (format_scan kwargs InLiteral rest) (fun r => Return (v ++ r)))
      else if Ascii.eqb c ":" then
        format_scan kwargs (InSpec name None EmptyString O) rest
      else if Ascii.eqb c "!" then
        format_scan kwargs (AtConversion name) rest
      else format_scan kwargs (InName (push name c)) rest
  | InIndex _, EmptyString =>
      Raise (ValueError "expected '}' before end of string")
  | InIndex name, String c rest =>
      if Ascii.eqb c "]"
      then format_scan kwargs (InName (push name c)) rest
      else format_scan kwargs (InIndex (push name c)) rest
  | AtConversion _, EmptyString =>
      Raise (ValueError "end of string while looking for conversion specifier")
  | AtConversion name, String c rest =>
      format_scan kwargs (AfterConversion name c) rest
  | AfterConversion _ _, EmptyString =>
      Raise (ValueError "unmatched '{' in format spec")
  | AfterConversion name conv, String c rest =>
      if Ascii.eqb c "}" then
        bind (render_field kwargs name (Some conv) EmptyString) (fun v =>
        bind (format_scan kwargs InLiteral rest) (fun r => Return (v ++ r)))
      else if Ascii.eqb c ":" then
        format_scan kwargs (InSpec name (Some conv) EmptyString O) rest
      else Raise (ValueError "expected ':' after conversion specifier")
  | InSpec _ _ _ _, EmptyString =>
      Raise (ValueError "unmatched '{' in format spec")
  | InSpec name conv spec depth, String c rest =>
      if Ascii.eqb c "{" then
        format_scan kwargs (InSpec name conv (push spec c) (S depth)) rest
      else if Ascii.eqb c "}" then
        match depth with
        | O =>
            bind (render_field kwargs name conv spec) (fun v =>
            bind (format_scan kwargs InLiteral rest) (fun r => Return (v ++ r)))
        | S depth' =>
            format_scan kwargs (InSpec name conv (push spec c) depth') rest
        end
      else format_scan kwargs (InSpec name conv (push spec c) depth) rest
  end.

(** [s.format] applied to the keyword arguments [kwargs] *)
Definition format (s : string) (kwargs : gmap string pyobj) : outcome string :=
  format_scan kwargs InLiteral s.

End PyStr.

(** ** ParameterExtractor *)

Module ParameterExtractor.

(** An extractor object holds its text and nothing else. *)
Definition t : Type := string.

(** [__find_param(start_index)] on the text of the extractor: the pair
    [(param, last_index)], with [(None, -1)] for no parameter. *)
Definition find_param (text : string) (start_index : Z) : option string * Z :=
  let open := PyStr.find text "{" start_index in
  let close := PyStr.find text "}" (start_index + 1) in
  if (open =? -1) || (close =? -1) then (None, -1)
  else if open >? close then (None, -1)
  else (Some (PyStr.slice text (open + 1) close), close).

(** The [while] loop of [get_parameters], entered with the list built so
    far and the result of the last [__find_param]; one unit of fuel per
    iteration, [None] when the fuel runs out. *)
Fixpoint get_parameters_loop (fuel : nat) (text : string)
    (params : list string) (param : option string) (last_index : Z)
    {struct fuel} : option (list string) :=
  match param with
  | None => Some params
  | Some p =>
      if last_index >? -1 then
        match fuel with
        | O => None
        | S fuel' =>
            let '(param', last_index') := find_param text last_index in
            get_parameters_loop fuel' text (params ++ [p]) param' last_index'
        end
      else Some params
  end.

Definition get_parameters_run (text : string) : option (list string) :=
  let '(param, last_index) := find_param text 0 in
  get_parameters_loop (String.length text) text [] param last_index.

(** [get_parameters()]; the loop never runs out of the fuel given to it
    ([get_parameters_run_total] below). *)
Definition get_parameters (text : string) : list string :=
  match get_parameters_run text with
  | Some params => params
  | None => []
  end.

End ParameterExtractor.

(** ** Locator *)

Module Locator.

Inductive Using : Type :=
| ID | NAME | XPATH | CLASS | CSS | TAG_NAME | LINK_TEXT | PARTIAL_LINK_TEXT.

Definition Using_value (u : Using) : string :=
  match u with
  | ID => "id"
  | NAME => "name"
  | XPATH => "xpath"
  | CLASS => "class name"
  | CSS => "css selector"
  | TAG_NAME => "tag name"
  | LINK_TEXT => "link text"
  | PARTIAL_LINK_TEXT => "partial link text"
  end.

(** [using] is a reserved word here, hence [using_]. *)
Record t : Type := {
  using_ : Using;
  value : string;
  parameter_extractor : ParameterExtractor.t
}.

(** [Locator(using, value, parameter_extractor=None)]: an extractor object is
    always true, so the one passed in is kept and only [None] is replaced by
    an extractor on the value. *)
Definition init (using_arg : Using) (value : string)
    (parameter_extractor : option ParameterExtractor.t) : t :=
  {| using_ := using_arg;
     value := value;
     parameter_extractor :=
       match parameter_extractor with
       | Some pe => pe
       | None => value
       end |}.

Definition parameters (self : t) : list string :=
  ParameterExtractor.get_parameters (parameter_extractor self).

Definition is_parameterized (self : t) : bool :=
  Z.of_nat (List.length (parameters self)) >? 0.

(** the [for] loop of [__validate_parameters] *)
Fixpoint validate_loop (params : list string) (kwargs : gmap string pyobj)
    : outcome unit :=
  match params with
  | [] => Return tt
  | param :: params' =>
      match kwargs !! param with
      | None =>
          Raise (ValueError ("get_by method is missing keyword argument: " ++ param))
      | Some _ => validate_loop params' kwargs
      end
  end.

Definition validate_parameters (self : t) (kwargs : gmap string pyobj)
    : outcome unit :=
  validate_loop (parameters self) kwargs.

Definition parameterize_value (self : t) (kwargs : gmap string pyobj)
    : outcome string :=
  if (size kwargs =? 0)%nat then
    Raise (ValueError ("get_by method is missing keyword arguments: "
                       ++ PyStr.repr_list (parameters self)))
  else
    bind (validate_parameters self kwargs) (fun _ =>
    PyStr.format (value self) kwargs).

Definition get_value (self : t) (kwargs : gmap string pyobj) : outcome string :=
  if is_parameterized self then parameterize_value self kwargs
  else Return (value self).

Definition get_by (self : t) (kwargs : gmap string pyobj)
    : outcome (string * string) :=
  bind (get_value self kwargs) (fun v => Return (Using_value (using_ self), v)).

End Locator.

(** ** FluentFinder *)

Module FluentFinder.

(** The objects passed as [condition]: the two expected conditions the
    class names as defaults, and any other object, with its truth value. *)
Inductive condition : Type :=
| presence_of_element_located
| presence_of_all_elements_located
| Callable (name : string) (truth : bool).

Definition condition_truth (c : condition) : bool :=
  match c with
  | Callable _ truth => truth
  | _ => true
  end.

(** the truth value of an [int] *)
Definition int_truth (n : Z) : bool := negb (n =? 0).

Section Finder.

Context {WebDriver Result : Type}.

(** One call [WebDriverWait(driver, timeout).until(condition(locator))]. *)
Record wait_call : Type := {
  wait_driver : WebDriver;
  wait_timeout : Z;
  wait_condition : condition;
  wait_locator : string * string
}.

(** One line of the debug log, before it is turned into text. *)
Record log_record : Type := {
  log_method : string;
  log_locator : string * string;
  log_timeout : Z;
  log_condition : condition
}.

Record t : Type := {
  webdriver : WebDriver;
  default_timeout : Z
}.

(** The polling wait of the driver library: what the call returns or raises
    is its business. *)
Variable until : wait_call -> Result.

(** The class attributes, as the conditions they are set to. What reading
    one through the instance gives to the call is [callee_of] below. *)
Definition default_single_condition : condition := presence_of_element_located.
Definition default_multi_condition : condition := presence_of_all_elements_located.

(** [x if x else default] on an optional [int] *)
Definition timeout_or (timeout : option Z) (default : Z) : Z :=
  match timeout with
  | Some n => if int_truth n then n else default
  | None => default
  end.

Definition condition_or (cond : option condition) (default : condition)
    : condition :=
  match cond with
  | Some c => if condition_truth c then c else default
  | None => default
  end.

(** [find_element] and [find_elements] as far as the call
    [c(locator_tuple)] goes through: the line logged and what the wait
    gives. [find_element_in] and [find_elements_in] below add the case in
    which that call raises. *)
Definition find_element (self : t) (locator_tuple : string * string)
    (timeout : option Z) (cond : option condition) : log_record * Result :=
  let t := timeout_or timeout (default_timeout self) in
  let c := condition_or cond default_single_condition in
  ({| log_method := "find_element"; log_locator := locator_tuple;
      log_timeout := t; log_condition := c |},
   until {| wait_driver := webdriver self; wait_timeout := t;
            wait_condition := c; wait_locator := locator_tuple |}).

Definition find_elements (self : t) (locator_tuple : string * string)
    (timeout : option Z) (cond : option condition) : log_record * Result :=
  let t := timeout_or timeout (default_timeout self) in
  let c := condition_or cond default_multi_condition in
  ({| log_method := "find_elements"; log_locator := locator_tuple;
      log_timeout := t; log_condition := c |},
   until {| wait_driver := webdriver self; wait_timeout := t;
            wait_condition := c; wait_locator := locator_tuple |}).

End Finder.

(** *** The default conditions read through the instance

    [default_single_condition] and [default_multi_condition] are class
    attributes, and the methods read them as [self.default_..._condition].
    The driver library has defined its expected conditions as classes
    (selenium 3) and as plain functions (selenium 4). A class read through
    the instance is the class; a function read through the instance is a
    method bound to the finder. *)
Inductive conditions_are : Type :=
| Classes
| Functions.

(** what [c] names in the body of a find method *)
Inductive callee : Type :=
| Passed (c : condition)
| ReadFromSelf (c : condition).

Definition callee_of (cond : option condition) (default : condition) : callee :=
  match cond with
  | Some c => if condition_truth c then Passed c else ReadFromSelf default
  | None => ReadFromSelf default
  end.

(** [c(locator_tuple)] raises [TypeError] when [c] is a bound method made
    from a function of the library: the finder comes as a first argument
    to a function of one parameter. *)
Definition call_raises (lib : conditions_are) (c : callee) : bool :=
  match lib, c with
  | Functions, ReadFromSelf _ => true
  | _, _ => false
  end.

(** what a find method comes to, the line being logged in both cases: the
    wait is made, or the call of the condition raises before it *)
Inductive attempt (Result : Type) : Type :=
| Waited (result : Result)
| RaisedTypeError.

Arguments Waited {Result} result.
Arguments RaisedTypeError {Result}.

Definition find_element_in {WebDriver Result : Type} (lib : conditions_are)
    (until : @wait_call WebDriver -> Result)
    (self : t) (locator_tuple : string * string)
    (timeout : option Z) (cond : option condition)
    : log_record * attempt Result :=
  let '(line, result) := find_element until self locator_tuple timeout cond in
  (line,
   if call_raises lib (callee_of cond default_single_condition)
   then RaisedTypeError else Waited result).

Definition find_elements_in {WebDriver Result : Type} (lib : conditions_are)
    (until : @wait_call WebDriver -> Result)
    (self : t) (locator_tuple : string * string)
    (timeout : option Z) (cond : option condition)
    : log_record * attempt Result :=
  let '(line, result) := find_elements until self locator_tuple timeout cond in
  (line,
   if call_raises lib (callee_of cond default_multi_condition)
   then RaisedTypeError else Waited result).

End FluentFinder.

(** ** The logger of the finders *)

Module FinderLog.

Definition NOTSET : Z := 0.
Definition DEBUG : Z := 10.

(** a filter, as its verdict on a record *)
Definition filter_verdict : Type := FluentFinder.log_record -> bool.

(** A handler attached to a logger: its level, its filters, and whether
    the stream it writes to is standard output. *)
Record handler : Type := {
  handler_level : Z;
  handler_filters : list filter_verdict;
  to_stdout : bool
}.

(** [logging.StreamHandler(sys.stdout)] *)
Definition StreamHandler_stdout : handler :=
  {| handler_level := NOTSET; handler_filters := []; to_stdout := true |}.

(** The logger named [abs-finder]. [logging.getLogger] gives the same
    logger object to every [Finder], so it is one piece of state that all
    finders share. *)
Record logger : Type := {
  handlers : list handler;
  level : Z;
  disabled : bool;
  propagate : bool;
  filters : list filter_verdict
}.

(** The state of logging that a debug call of a finder goes through: the
    level set by [logging.disable], the level and the handlers of the root
    logger, which is the parent of the shared logger, the shared logger,
    and the lines written to standard output. *)
Record state : Type := {
  manager_disable : Z;
  root_level : Z;
  root_handlers : list handler;
  abs_finder : logger;
  stdout : list FluentFinder.log_record
}.

(** [getEffectiveLevel]: a logger without a level of its own takes the
    level of the root logger *)
Definition effective_level (st : state) : Z :=
  if level (abs_finder st) =? NOTSET then root_level st
  else level (abs_finder st).

Definition isEnabledFor (st : state) (lvl : Z) : bool :=
  negb (disabled (abs_finder st))
  && negb (manager_disable st >=? lvl)
  && (lvl >=? effective_level st).

Definition passes (fs : list filter_verdict) (line : FluentFinder.log_record)
    : bool :=
  forallb (fun f => f line) fs.

(** whether a handler writes a [DEBUG] record to standard output *)
Definition handler_writes (line : FluentFinder.log_record) (h : handler) : bool :=
  (DEBUG >=? handler_level h) && passes (handler_filters h) line && to_stdout h.

(** what handlers write, called in turn *)
Definition handlers_write (line : FluentFinder.log_record) (hs : list handler)
    : list FluentFinder.log_record :=
  flat_map (fun h => if handler_writes line h then [line] else []) hs.

(** [callHandlers]: the handlers of the logger, then those of its parent
    when the logger propagates *)
Definition called_handlers (st : state) : list handler :=
  (handlers (abs_finder st)
   ++ (if propagate (abs_finder st) then root_handlers st else []))%list.

(** [Finder.__init__]: one more stream handler on the shared logger, whose
    level is set to [DEBUG] *)
Definition Finder_init (st : state) : state :=
  {| manager_disable := manager_disable st;
     root_level := root_level st;
     root_handlers := root_handlers st;
     abs_finder := {| handlers := handlers (abs_finder st) ++ [StreamHandler_stdout];
                      level := DEBUG;
                      disabled := disabled (abs_finder st);
                      propagate := propagate (abs_finder st);
                      filters := filters (abs_finder st) |};
     stdout := stdout st |}.

(** [FluentFinder(webdriver, default_timeout)] *)
Definition init {WebDriver : Type} (webdriver : WebDriver)
    (default_timeout : Z) (st : state) : FluentFinder.t * state :=
  ({| FluentFinder.webdriver := webdriver;
      FluentFinder.default_timeout := default_timeout |},
   Finder_init st).

(** finders constructed one after the other *)
Fixpoint init_all {WebDriver : Type} (args : list (WebDriver * Z))
    (st : state) : list FluentFinder.t * state :=
  match args with
  | [] => ([], st)
  | (webdriver, default_timeout) :: args' =>
      let '(finder, st1) := init webdriver default_timeout st in
      let '(finders, st2) := init_all args' st1 in
      (finder :: finders, st2)
  end.

(** [self.logger.debug(line)] *)
Definition debug (line : FluentFinder.log_record) (st : state) : state :=
  if isEnabledFor st DEBUG && passes (filters (abs_finder st)) line then
    {| manager_disable := manager_disable st;
       root_level := root_level st;
       root_handlers := root_handlers st;
       abs_finder := abs_finder st;
       stdout := stdout st ++ handlers_write line (called_handlers st) |}
  else st.

(** whether a [DEBUG] record of a finder gets to the handlers once the
    level of the logger is [DEBUG]: the logger is not disabled,
    [logging.disable] is below [DEBUG] and the filters of the logger accept
    the record *)
Definition reaches_handlers (line : FluentFinder.log_record) (st : state) : bool :=
  negb (disabled (abs_finder st))
  && negb (manager_disable st >=? DEBUG)
  && passes (filters (abs_finder st)) line.

(** how many of the handlers called write a [DEBUG] record to standard
    output *)
Definition writing_handlers (line : FluentFinder.log_record) (st : state) : nat :=
  List.length (List.filter (handler_writes line) (called_handlers st)).

(** [find_element] and [find_elements] with the logging state: the line is
    logged before the condition is called and the wait is made. *)
Definition find_element {WebDriver Result : Type}
    (lib : FluentFinder.conditions_are)
    (until : @FluentFinder.wait_call WebDriver -> Result)
    (self : FluentFinder.t) (locator_tuple : string * string)
    (timeout : option Z) (cond : option FluentFinder.condition)
    (st : state) : FluentFinder.attempt Result * state :=
  let '(line, result) :=
    FluentFinder.find_element_in lib until self locator_tuple timeout cond in
  (result, debug line st).

Definition find_elements {WebDriver Result : Type}
    (lib : FluentFinder.conditions_are)
    (until : @FluentFinder.wait_call WebDriver -> Result)
    (self : FluentFinder.t) (locator_tuple : string * string)
    (timeout : option Z) (cond : option FluentFinder.condition)
    (st : state) : FluentFinder.attempt Result * state :=
  let '(line, result) :=
    FluentFinder.find_elements_in lib until self locator_tuple timeout cond in
  (result, debug line st).

End FinderLog.

(** ** Templates made of literal text and placeholders *)

Module Template.

Inductive segment : Type :=
| Lit (s : string)
| Field (name : string).

Definition placeholder (name : string) : string :=
  String "{" (name ++ String "}" EmptyString).

Definition render_segment (seg : segment) : string :=
  match seg with
  | Lit s => s
  | Field name => placeholder name
  end.

Fixpoint render (segs : list segment) : string :=
  match segs with
  | [] => EmptyString
  | seg :: segs' => render_segment seg ++ render segs'
  end.

(** the placeholder names, one per occurrence, in order *)
Fixpoint names (segs : list segment) : list string :=
  match segs with
  | [] => []
  | Lit _ :: segs' => names segs'
  | Field name :: segs' => name :: names segs'
  end.

Definition brace_free (s : string) : bool :=
  negb (PyStr.contains "{" s) && negb (PyStr.contains "}" s).

(** A name that [format] looks up as a keyword as it stands: not empty, not
    a number, and without the characters that end or structure a field
    name. *)
Definition simple_name (name : string) : bool :=
  negb (PyStr.is_empty name) && negb (PyStr.all_digits name)
  && brace_free name
  && negb (PyStr.contains "." name) && negb (PyStr.contains "[" name)
  && negb (PyStr.contains "!" name) && negb (PyStr.contains ":" name).

Definition plain_segment (seg : segment) : bool :=
  match seg with
  | Lit s => brace_free s
  | Field name => brace_free name
  end.

Definition simple_segment (seg : segment) : bool :=
  match seg with
  | Lit s => brace_free s
  | Field name => simple_name name
  end.

(** no [{] of [s] has a [}] somewhere after it *)
Fixpoint no_matched_pair (s : string) : bool :=
  match s with
  | EmptyString => true
  | String a s' =>
      if Ascii.eqb a "{" then negb (PyStr.contains "}" s')
      else no_matched_pair s'
  end.

Definition starts_with_close (s : string) : bool :=
  match s with
  | EmptyString => false
  | String a _ => Ascii.eqb a "}"
  end.

(** every placeholder replaced, one by one, by the string form of its
    value *)
Fixpoint fill (kwargs : gmap string pyobj) (segs : list segment) : string :=
  match segs with
  | [] => EmptyString
  | Lit s :: segs' => s ++ fill kwargs segs'
  | Field name :: segs' =>
      match kwargs !! name with
      | Some v => py_str v
      | None => EmptyString
      end ++ fill kwargs segs'
  end.

Fixpoint field_count (name : string) (segs : list segment) : nat :=
  match segs with
  | [] => O
  | Lit _ :: segs' => field_count name segs'
  | Field name' :: segs' =>
      ((if String.eqb name' name then 1 else 0) + field_count name segs')%nat
  end.

(** a character that neither ends nor structures a field name *)
Definition name_char (c : ascii) : bool :=
  negb (Ascii.eqb c "{" || Ascii.eqb c "[" || Ascii.eqb c "}"
        || Ascii.eqb c ":" || Ascii.eqb c "!").

Fixpoint name_chars (s : string) : bool :=
  match s with
  | EmptyString => true
  | String c s' => name_char c && name_chars s'
  end.

(** every one of [params] is a key of [kwargs] *)
Definition complete (kwargs : gmap string pyobj) (params : list string) : Prop :=
  forall p, In p params -> is_Some (kwargs !! p).

End Template.

(** ** The algorithms as the specification words them *)

Module Spec.

(** the first position at or after [pos] that holds [c] *)
Fixpoint next_index (c : ascii) (text : string) (pos : nat) : option nat :=
  match text with
  | EmptyString => None
  | String a rest =>
      match pos with
      | O => if Ascii.eqb a c then Some O else option_map S (next_index c rest O)
      | S pos' => option_map S (next_index c rest pos')
      end
  end.

(** the characters strictly between positions [o] and [c] *)
Definition between (text : string) (o c : nat) : string :=
  substring (S o) (c - S o) text.

(** The scanning loop of section 4.1 with its two degrees of freedom left
    open: where the search for the closing brace starts, given the cursor
    and the position of the opening brace, and where the cursor goes once
    the closing brace at [c] is consumed. *)
Fixpoint scan (close_from : nat -> nat -> nat) (advance : nat -> nat)
    (fuel : nat) (text : string) (cursor : nat) : list string :=
  match fuel with
  | O => []
  | S fuel' =>
      match next_index "{" text cursor with
      | None => []
      | Some o =>
          match next_index "}" text (close_from cursor o) with
          | None => []
          | Some c =>
              if (c <? o)%nat then []
              else between text o c :: scan close_from advance fuel' text (advance c)
          end
      end
  end.

(** "the next [}] after that" read as: after the [{] just located; the
    cursor moves just past the [}]. *)
Definition extract_after_brace (text : string) : list string :=
  scan (fun _ o => S o) S (S (String.length text)) text O.

(** the same, the [}] being the next one at or after the cursor *)
Definition extract_from_cursor (text : string) : list string :=
  scan (fun cursor _ => cursor) S (S (String.length text)) text O.

(** the same, the [}] being the next one strictly after the cursor *)
Definition extract_past_cursor (text : string) : list string :=
  scan (fun cursor _ => S cursor) S (S (String.length text)) text O.

(** the same, the [}] being the next one at or after the cursor, except
    that it is never looked for at index 0 *)
Definition extract_from_cursor_after_first (text : string) : list string :=
  scan (fun cursor _ => Nat.max 1 cursor) S (S (String.length text)) text O.

(** The loop in the terms of the code: the [}] is the next one strictly
    after the cursor, and the cursor moves onto that [}], not past it. *)
Definition extract_onto_brace (text : string) : list string :=
  scan (fun cursor _ => S cursor) (fun c => c) (S (String.length text)) text O.

(** the number of positions of [s] at which [pat] starts *)
Fixpoint occurrences (pat s : string) : nat :=
  match s with
  | EmptyString => O
  | String _ rest =>
      ((if String.prefix pat s then 1 else 0) + occurrences pat rest)%nat
  end.

(** the first of [params] whose placeholder starts [s] *)
Fixpoint placeholder_at (params : list string) (s : string) : option string :=
  match params with
  | [] => None
  | p :: params' =>
      if String.prefix (Template.placeholder p) s then Some p
      else placeholder_at params' s
  end.

(** Literal substitution, left to right: wherever the placeholder of one of
    [params] starts, the string form of its value is written in its place
    and the scan goes on after it ([skip] counts the characters of the
    placeholder still to pass over). *)
Fixpoint substitute (params : list string) (kwargs : gmap string pyobj)
    (skip : nat) (s : string) : string :=
  match s with
  | EmptyString => EmptyString
  | String c rest =>
      match skip with
      | S skip' => substitute params kwargs skip' rest
      | O =>
          match placeholder_at params s with
          | Some p =>
              match kwargs !! p with
              | Some v =>
                  py_str v ++ substitute params kwargs (S (String.length p)) rest
              | None => String c (substitute params kwargs O rest)
              end
          | None => String c (substitute params kwargs O rest)
          end
      end
  end.

Definition literally_substituted (params : list string)
    (kwargs : gmap string pyobj) (template : string) : string :=
  substitute params kwargs O template.

End Spec.

(** ** Vocabulary for the properties of the extraction *)

Module Extracted.

(** [p] is the text between an opening brace at or after [cursor] and a
    closing brace after it, with no other closing brace in between *)
Definition matched (text : string) (cursor : nat) (p : string) : Prop :=
  exists o c,
    (cursor <= o /\ o < c /\ c < String.length text)%nat /\
    String.get o text = Some "{"%char /\
    String.get c text = Some "}"%char /\
    p = Spec.between text o c /\
    forall k, (o < k < c)%nat -> String.get k text <> Some "}"%char.

(** the characters the names take up in the text, two braces each
    included *)
Definition footprint (params : list string) : nat :=
  list_sum (map (fun p => String.length p + 2)%nat params).

End Extracted.

(** ** The locator of the class documentation *)

Module Examples.

(** the template of the docstring, whose attribute value is in double
    quotes *)
Definition button_template : string :=
  "//button[@name=" ++ String PyStr.dquote ("{button_name}" ++ String PyStr.dquote "]").

Definition button_segments : list Template.segment :=
  [ Template.Lit ("//button[@name=" ++ String PyStr.dquote EmptyString);
    Template.Field "button_name";
    Template.Lit (String PyStr.dquote "]") ].

Definition parameterized_button : Locator.t :=
  Locator.init Locator.XPATH button_template None.

Definition button_named (name : string) : string :=
  "//button[@name=" ++ String PyStr.dquote (name ++ String PyStr.dquote "]").

(** a state of logging before any finder is constructed: the shared
    logger has a handler on standard output for warnings and one for every
    level, and the root logger has one for every level and one on another
    stream *)
Definition logging_before : FinderLog.state :=
  {| FinderLog.manager_disable := 0;
     FinderLog.root_level := 30;
     FinderLog.root_handlers :=
       [ {| FinderLog.handler_level := 0;
            FinderLog.handler_filters := [];
            FinderLog.to_stdout := true |};
         {| FinderLog.handler_level := 0;
            FinderLog.handler_filters := [];
            FinderLog.to_stdout := false |} ];
     FinderLog.abs_finder :=
       {| FinderLog.handlers :=
            [ {| FinderLog.handler_level := 30;
                 FinderLog.handler_filters := [];
                 FinderLog.to_stdout := true |};
              {| FinderLog.handler_level := 0;
                 FinderLog.handler_filters := [];
                 FinderLog.to_stdout := true |} ];
          FinderLog.level := FinderLog.NOTSET;
          FinderLog.disabled := false;
          FinderLog.propagate := true;
          FinderLog.filters := [] |};
     FinderLog.stdout := [] |}.

End Examples.

(** * Proofs *)

Import PyStr ParameterExtractor.

(** ** Characters and positions *)

Section StringFacts.

Lemma str_app_cons (a : ascii) (s1 s2 : string) :
  String a s1 ++ s2 = String a (s1 ++ s2).
Proof. reflexivity. Qed.

Lemma str_app_nil (s : string) : EmptyString ++ s = s.
Proof. reflexivity. Qed.

Lemma str_drop_empty (n : nat) : str_drop n EmptyString = EmptyString.
Proof. destruct n; reflexivity. Qed.

Lemma str_drop_length (n : nat) (s : string) :
  String.length (str_drop n s) = (String.length s - n)%nat.
Proof.
  revert s; induction n as [|n IH]; intros [|a s]; simpl; try reflexivity.
  apply IH.
Qed.

Lemma str_drop_app (s1 s2 : string) :
  str_drop (String.length s1) (s1 ++ s2) = s2.
Proof.
  induction s1 as [|a s1 IH]; [now destruct s2|].
  rewrite str_app_cons. simpl. exact IH.
Qed.

Lemma str_take_app (s1 s2 : string) :
  str_take (String.length s1) (s1 ++ s2) = s1.
Proof.
  induction s1 as [|a s1 IH]; [now destruct s2|].
  rewrite str_app_cons. simpl. now rewrite IH.
Qed.

Lemma substring_take_drop (n m : nat) (s : string) :
  substring n m s = str_take m (str_drop n s).
Proof.
  revert n m; induction s as [|a s IH]; intros [|n] [|m]; simpl;
    try reflexivity.
  - now rewrite IH.
  - rewrite IH. destruct n; reflexivity.
  - apply IH.
Qed.

Lemma str_app_length (s1 s2 : string) :
  String.length (s1 ++ s2) = (String.length s1 + String.length s2)%nat.
Proof.
  induction s1 as [|a s1 IH]; [reflexivity|].
  rewrite str_app_cons. simpl. now rewrite IH.
Qed.

Lemma str_app_assoc (s1 s2 s3 : string) : (s1 ++ s2) ++ s3 = s1 ++ s2 ++ s3.
Proof.
  induction s1 as [|a s1 IH]; [reflexivity|].
  rewrite !str_app_cons. now rewrite IH.
Qed.

Lemma str_app_empty_r (s : string) : s ++ EmptyString = s.
Proof.
  induction s as [|a s IH]; [reflexivity|].
  rewrite str_app_cons. now rewrite IH.
Qed.

Lemma first_index_bound (c : ascii) (s : string) (i : nat) :
  first_index c s = Some i -> (i < String.length s)%nat.
Proof.
  revert i; induction s as [|a s IH]; simpl; intros i H; [discriminate|].
  destruct (Ascii.eqb a c).
  - injection H as <-. lia.
  - destruct (first_index c s) as [j|]; [|discriminate].
    injection H as <-. specialize (IH j eq_refl). lia.
Qed.

Lemma first_index_get (c : ascii) (s : string) (i : nat) :
  first_index c s = Some i -> String.get i s = Some c.
Proof.
  revert i; induction s as [|a s IH]; simpl; intros i H; [discriminate|].
  destruct (Ascii.eqb a c) eqn:E.
  - injection H as <-. apply Ascii.eqb_eq in E. now subst.
  - destruct (first_index c s) as [j|]; [|discriminate].
    injection H as <-. now apply IH.
Qed.

Lemma get_drop (n i : nat) (s : string) :
  String.get i (str_drop n s) = String.get (n + i) s.
Proof.
  revert s; induction n as [|n IH]; intros [|a s]; simpl; try reflexivity.
  apply IH.
Qed.

Lemma first_index_none (c : ascii) (s : string) :
  first_index c s = None <-> contains c s = false.
Proof.
  induction s as [|a s IH]; simpl; [tauto|].
  destruct (Ascii.eqb a c); simpl.
  - split; discriminate.
  - destruct (first_index c s); simpl.
    + split; [discriminate|]. intros H. apply IH in H. discriminate.
    + tauto.
Qed.

Lemma first_index_app (c : ascii) (s1 s2 : string) :
  first_index c (s1 ++ s2) =
  match first_index c s1 with
  | Some i => Some i
  | None => option_map (Nat.add (String.length s1)) (first_index c s2)
  end.
Proof.
  induction s1 as [|a s1 IH].
  - rewrite str_app_nil. simpl. now destruct (first_index c s2).
  - rewrite str_app_cons. simpl.
    destruct (Ascii.eqb a c); [reflexivity|].
    rewrite IH. destruct (first_index c s1); simpl; [reflexivity|].
    now destruct (first_index c s2).
Qed.

Lemma contains_app (c : ascii) (s1 s2 : string) :
  contains c (s1 ++ s2) = contains c s1 || contains c s2.
Proof.
  induction s1 as [|a s1 IH]; [reflexivity|].
  rewrite str_app_cons. simpl. rewrite IH. now rewrite orb_assoc.
Qed.

End StringFacts.

(** ** [find], slices and [__find_param] in terms of positions *)

Section Positions.

Lemma next_index_drop (c : ascii) (text : string) (pos : nat) :
  Spec.next_index c text pos =
  if (String.length text <? pos)%nat then None
  else option_map (Nat.add pos) (first_index c (str_drop pos text)).
Proof.
  revert pos; induction text as [|a text IH]; intros [|pos]; simpl;
    try reflexivity.
  - rewrite IH. simpl. destruct (Ascii.eqb a c); [reflexivity|].
    now destruct (first_index c text).
  - rewrite IH.
    change (S (String.length text) <? S pos)%nat
      with (String.length text <? pos)%nat.
    destruct (String.length text <? pos)%nat; [reflexivity|].
    now destruct (first_index c (str_drop pos text)).
Qed.

Lemma next_index_bounds (c : ascii) (text : string) (pos i : nat) :
  Spec.next_index c text pos = Some i ->
  (pos <= i < String.length text)%nat /\ String.get i text = Some c.
Proof.
  rewrite next_index_drop.
  destruct (Nat.ltb_spec (String.length text) pos) as [|Hle]; [discriminate|].
  destruct (first_index c (str_drop pos text)) as [k|] eqn:E; [|discriminate].
  simpl. intros [= <-].
  pose proof (first_index_bound _ _ _ E) as Hb.
  rewrite str_drop_length in Hb.
  apply first_index_get in E. rewrite get_drop in E.
  split; [lia | exact E].
Qed.

Lemma next_index_past_end (c : ascii) (text : string) (pos : nat) :
  (String.length text <= pos)%nat -> Spec.next_index c text pos = None.
Proof.
  intros H. destruct (Spec.next_index c text pos) as [i|] eqn:E; [|reflexivity].
  apply next_index_bounds in E. lia.
Qed.

(** [find] from a natural start index is [next_index], with [-1] for
    [None]. *)
Lemma find_next_index (text : string) (c : ascii) (pos : nat) :
  find text c (Z.of_nat pos) =
  match Spec.next_index c text pos with
  | Some i => Z.of_nat i
  | None => -1
  end.
Proof.
  unfold find, adjust_start. rewrite next_index_drop.
  destruct (Z.ltb_spec (Z.of_nat pos) 0) as [|_]; [lia|].
  destruct (Z.ltb_spec (Z.of_nat (String.length text)) (Z.of_nat pos)),
    (Nat.ltb_spec (String.length text) pos); try lia.
  rewrite Nat2Z.id.
  destruct (first_index c (str_drop pos text)); simpl; [lia | reflexivity].
Qed.

Lemma slice_between (text : string) (o c : nat) :
  (o < c <= String.length text)%nat ->
  slice text (Z.of_nat o + 1) (Z.of_nat c) = Spec.between text o c.
Proof.
  intros H. unfold slice, clamp, Spec.between.
  rewrite substring_take_drop.
  destruct (Z.ltb_spec (Z.of_nat o + 1) 0) as [|_]; [lia|].
  destruct (Z.ltb_spec (Z.of_nat c) 0) as [|_]; [lia|].
  rewrite !Z.min_l by lia.
  destruct (Z.ltb_spec (Z.of_nat o + 1) (Z.of_nat c)) as [Hlt|Hge].
  - f_equal; [lia|]. f_equal. lia.
  - replace (c - S o)%nat with O by lia. now destruct (str_drop (S o) text).
Qed.

(** [__find_param] from a natural start index, without sentinels. *)
Lemma find_param_positions (text : string) (cursor : nat) :
  find_param text (Z.of_nat cursor) =
  match Spec.next_index "{" text cursor with
  | None => (None, -1)
  | Some o =>
      match Spec.next_index "}" text (S cursor) with
      | None => (None, -1)
      | Some c =>
          if (c <? o)%nat then (None, -1)
          else (Some (Spec.between text o c), Z.of_nat c)
      end
  end.
Proof.
  unfold find_param.
  replace (Z.of_nat cursor + 1) with (Z.of_nat (S cursor)) by lia.
  rewrite !find_next_index.
  destruct (Spec.next_index "{" text cursor) as [o|] eqn:Eo.
  2:{ reflexivity. }
  destruct (Spec.next_index "}" text (S cursor)) as [c|] eqn:Ec.
  2:{ destruct (Z.eqb_spec (Z.of_nat o) (-1)); [lia | reflexivity]. }
  destruct (Z.eqb_spec (Z.of_nat o) (-1)); [lia|].
  destruct (Z.eqb_spec (Z.of_nat c) (-1)); [lia|]. simpl.
  apply next_index_bounds in Eo, Ec.
  destruct Eo as [Ho Go], Ec as [Hc Gc].
  assert (o <> c) by (intros ->; rewrite Go in Gc; discriminate).
  destruct (Nat.ltb_spec c o).
  - destruct (Z.gtb_spec (Z.of_nat o) (Z.of_nat c)); [reflexivity | lia].
  - destruct (Z.gtb_spec (Z.of_nat o) (Z.of_nat c)); [lia|].
    rewrite slice_between by lia. reflexivity.
Qed.

End Positions.

(** ** The loop of [get_parameters] *)

Section Extraction.

Abbreviation onto_scan := (Spec.scan (fun cursor _ => S cursor) (fun c => c)).

Lemma loop_unfold (fuel : nat) (text : string) (params : list string)
    (p : string) (last_index : Z) :
  get_parameters_loop (S fuel) text params (Some p) last_index =
  if last_index >? -1 then
    let '(param', last_index') := find_param text last_index in
    get_parameters_loop fuel text (params ++ [p]) param' last_index'
  else Some params.
Proof. reflexivity. Qed.

Lemma loop_done (fuel : nat) (text : string) (params : list string)
    (last_index : Z) :
  get_parameters_loop fuel text params None last_index = Some params.
Proof. destruct fuel; reflexivity. Qed.

Lemma onto_scan_past_end (fuel : nat) (text : string) (cursor : nat) :
  (String.length text <= cursor)%nat -> onto_scan fuel text cursor = [].
Proof.
  intros H. destruct fuel; [reflexivity|]. simpl.
  now rewrite next_index_past_end.
Qed.

(** With one unit of fuel per remaining character the loop finishes, and it
    has appended what the scan from the same cursor lists. *)
Lemma loop_scan (text : string) (f1 : nat) :
  forall (f2 cursor : nat) (params : list string) (p : string),
    (String.length text <= cursor + f1)%nat ->
    (String.length text <= cursor + f2)%nat ->
    get_parameters_loop (S f1) text params (Some p) (Z.of_nat cursor) =
    Some (params ++ p :: onto_scan f2 text cursor)%list.
Proof.
  induction f1 as [|f1 IH]; intros f2 cursor params p H1 H2;
    rewrite loop_unfold;
    (destruct (Z.gtb_spec (Z.of_nat cursor) (-1)); [|lia]);
    rewrite find_param_positions.
  - rewrite next_index_past_end by lia.
    rewrite loop_done, onto_scan_past_end by lia. reflexivity.
  - destruct f2 as [|f2].
    { rewrite next_index_past_end by lia. now rewrite loop_done. }
    simpl Spec.scan.
    destruct (Spec.next_index "{" text cursor) as [o|] eqn:Eo;
      [|now rewrite loop_done].
    destruct (Spec.next_index "}" text (S cursor)) as [c|] eqn:Ec;
      [|now rewrite loop_done].
    destruct (c <? o)%nat; [now rewrite loop_done|].
    apply next_index_bounds in Ec. destruct Ec as [Hc _].
    rewrite (IH f2) by lia.
    now rewrite <- List.app_assoc.
Qed.

Lemma get_parameters_run_scan (text : string) :
  get_parameters_run text = Some (Spec.extract_onto_brace text).
Proof.
  unfold get_parameters_run, Spec.extract_onto_brace.
  change 0 with (Z.of_nat O). rewrite find_param_positions.
  simpl Spec.scan.
  destruct (Spec.next_index "{" text O) as [o|] eqn:Eo;
    [|now rewrite loop_done].
  destruct (Spec.next_index "}" text 1) as [c|] eqn:Ec;
    [|now rewrite loop_done].
  destruct (c <? o)%nat; [now rewrite loop_done|].
  apply next_index_bounds in Ec. destruct Ec as [Hc _].
  destruct (String.length text) as [|f1] eqn:El; [lia|].
  now rewrite (loop_scan text f1 (S f1)) by lia.
Qed.

Lemma get_parameters_scan (text : string) :
  get_parameters text = Spec.extract_onto_brace text.
Proof. unfold get_parameters. now rewrite get_parameters_run_scan. Qed.

(** Where the words of the specification and the code agree: when the
    closing brace is looked for from the cursor and the cursor is put just
    past it, the two scans list the same names on every text that does not
    start with a closing brace. *)
Lemma next_index_skip (c ch : ascii) (text : string) (pos : nat) :
  String.get pos text = Some ch -> ch <> c ->
  Spec.next_index c text pos = Spec.next_index c text (S pos).
Proof.
  revert pos; induction text as [|a text IH]; intros [|pos] Hg Hne;
    simpl in Hg; try discriminate.
  - injection Hg as ->. simpl.
    destruct (Ascii.eqb_spec ch c); [contradiction|].
    now destruct text.
  - change (Spec.next_index c (String a text) (S pos))
      with (option_map S (Spec.next_index c text pos)).
    change (Spec.next_index c (String a text) (S (S pos)))
      with (option_map S (Spec.next_index c text (S pos))).
    now rewrite (IH pos).
Qed.

Lemma onto_scan_from_cursor (fuel : nat) (text : string) :
  forall cursor : nat,
    String.get cursor text = Some "}"%char ->
    onto_scan fuel text cursor =
    Spec.scan (fun cursor _ => cursor) S fuel text (S cursor).
Proof.
  induction fuel as [|fuel IH]; intros cursor Hg; [reflexivity|].
  simpl Spec.scan.
  rewrite (next_index_skip "{" "}" text cursor Hg) by discriminate.
  destruct (Spec.next_index "{" text (S cursor)) as [o|]; [|reflexivity].
  destruct (Spec.next_index "}" text (S cursor)) as [c|] eqn:Ec;
    [|reflexivity].
  destruct (c <? o)%nat; [reflexivity|].
  apply next_index_bounds in Ec as [_ Gc].
  now rewrite (IH c Gc).
Qed.

Lemma get_parameters_from_cursor (text : string) :
  String.get 0 text <> Some "}"%char ->
  get_parameters text = Spec.extract_from_cursor text.
Proof.
  intros H0. rewrite get_parameters_scan.
  unfold Spec.extract_onto_brace, Spec.extract_from_cursor.
  simpl Spec.scan.
  assert (E : Spec.next_index "}" text 1 = Spec.next_index "}" text 0).
  { destruct text as [|a text]; [reflexivity|].
    symmetry. apply (next_index_skip "}" a); [reflexivity|].
    intros ->. now apply H0. }
  rewrite E.
  destruct (Spec.next_index "{" text 0) as [o|]; [|reflexivity].
  destruct (Spec.next_index "}" text 0) as [c|] eqn:Ec; [|reflexivity].
  destruct (c <? o)%nat; [reflexivity|].
  apply next_index_bounds in Ec as [_ Gc].
  now rewrite (onto_scan_from_cursor _ _ c Gc).
Qed.

Lemma scan_after_first (fuel : nat) (text : string) :
  forall cursor : nat,
    (1 <= cursor)%nat ->
    Spec.scan (fun cursor _ => Nat.max 1 cursor) S fuel text cursor =
    Spec.scan (fun cursor _ => cursor) S fuel text cursor.
Proof.
  induction fuel as [|fuel IH]; intros cursor Hc; [reflexivity|].
  simpl Spec.scan. rewrite Nat.max_r by assumption.
  destruct (Spec.next_index "{" text cursor) as [o|]; [|reflexivity].
  destruct (Spec.next_index "}" text cursor) as [c|]; [|reflexivity].
  destruct (c <? o)%nat; [reflexivity|].
  now rewrite IH by lia.
Qed.

Lemma onto_brace_after_first (text : string) :
  Spec.extract_onto_brace text = Spec.extract_from_cursor_after_first text.
Proof.
  unfold Spec.extract_onto_brace, Spec.extract_from_cursor_after_first.
  simpl Spec.scan.
  destruct (Spec.next_index "{" text 0) as [o|]; [|reflexivity].
  destruct (Spec.next_index "}" text 1) as [c|] eqn:Ec; [|reflexivity].
  destruct (c <? o)%nat; [reflexivity|].
  apply next_index_bounds in Ec as [_ Gc].
  now rewrite scan_after_first, (onto_scan_from_cursor _ _ c Gc) by lia.
Qed.

End Extraction.

(** C1, as amended. For every input string the loop of [get_parameters]
    finishes within its fuel and returns the names produced by this
    algorithm: locate the next opening brace at or after a cursor and the
    next closing brace at or after the cursor, but never at index 0; stop
    if either is absent or the closing brace comes first; otherwise emit
    the characters between the two, put the cursor just past the closing
    brace and repeat. In the terms of the code: the closing brace is looked
    for strictly after the cursor, and the cursor moves onto it. *)
Theorem get_parameters_is_scan_after_first (text : string) :
  get_parameters_run text = Some (Spec.extract_from_cursor_after_first text) /\
  get_parameters text = Spec.extract_from_cursor_after_first text /\
  get_parameters text = Spec.extract_onto_brace text.
Proof.
  rewrite <- onto_brace_after_first.
  repeat split; auto using get_parameters_run_scan, get_parameters_scan.
Qed.

(** C1 as stated fails on a text that starts with a closing brace and has a
    stray one after its first placeholder: the code lists [a] alone, while
    the algorithm of the specification lists [a] and [b] when the closing
    brace is looked for after the opening one or strictly after a cursor put
    just past the last closing brace, and nothing at all when it is looked
    for from the cursor. *)
Lemma get_parameters_differs_from_spec_scan :
  get_parameters "}{a}}{b}" = ["a"] /\
  get_parameters "}{a}}{b}" <> Spec.extract_after_brace "}{a}}{b}" /\
  get_parameters "}{a}}{b}" <> Spec.extract_from_cursor "}{a}}{b}" /\
  get_parameters "}{a}}{b}" <> Spec.extract_past_cursor "}{a}}{b}".
Proof. vm_compute. repeat split; discriminate. Qed.

(** ** Extraction from a template followed by an unbalanced remainder *)

Section TemplateScan.

Import Template.

Abbreviation onto_scan := (Spec.scan (fun cursor _ => S cursor) (fun c => c)).

Lemma contains_get (c : ascii) (s : string) (i : nat) :
  String.get i s = Some c -> contains c s = true.
Proof.
  revert i; induction s as [|a s IH]; intros [|i] H; simpl in *;
    try discriminate.
  - injection H as ->. now rewrite Ascii.eqb_refl.
  - rewrite (IH i H). apply orb_true_r.
Qed.

Lemma contains_drop (c : ascii) (n : nat) (s : string) :
  contains c s = false -> contains c (str_drop n s) = false.
Proof.
  revert s; induction n as [|n IH]; intros [|a s] H; simpl in *; auto.
  apply orb_false_elim in H. now apply IH.
Qed.

Lemma get_app (i : nat) (s1 s2 : string) :
  String.get i (s1 ++ s2) =
  if (i <? String.length s1)%nat then String.get i s1
  else String.get (i - String.length s1) s2.
Proof.
  destruct (Nat.ltb_spec i (String.length s1)) as [Hlt|Hge].
  - symmetry. now apply append_correct1.
  - rewrite (append_correct2 s1 s2 (i - String.length s1)).
    f_equal. lia.
Qed.

Lemma next_index_app_at (c : ascii) (done w : string) :
  Spec.next_index c (done ++ w) (String.length done) =
  option_map (Nat.add (String.length done)) (first_index c w).
Proof.
  rewrite next_index_drop, str_app_length, str_drop_app.
  destruct (Nat.ltb_spec (String.length done + String.length w)
              (String.length done)); [lia | reflexivity].
Qed.

Lemma next_index_app_after (c : ascii) (done w : string) :
  Spec.next_index c (done ++ w) (S (String.length done)) =
  option_map (Nat.add (S (String.length done))) (first_index c (str_drop 1 w)).
Proof.
  destruct w as [|a w].
  - rewrite next_index_past_end; [reflexivity|].
    rewrite str_app_length. simpl. lia.
  - replace (done ++ String a w) with ((done ++ String a EmptyString) ++ w)
      by now rewrite str_app_assoc.
    replace (S (String.length done))
      with (String.length (done ++ String a EmptyString))
      by (rewrite str_app_length; simpl; lia).
    apply next_index_app_at.
Qed.

Lemma between_exact (pre name post : string) (o c : nat) :
  S o = String.length pre ->
  c = (String.length pre + String.length name)%nat ->
  Spec.between (pre ++ name ++ post) o c = name.
Proof.
  intros Ho ->. unfold Spec.between. rewrite substring_take_drop, Ho.
  rewrite str_drop_app.
  replace (String.length pre + String.length name - String.length pre)%nat
    with (String.length name) by lia.
  apply str_take_app.
Qed.

Lemma placeholder_app (name more : string) :
  placeholder name ++ more = String "{" (name ++ String "}" more).
Proof.
  unfold placeholder. rewrite str_app_cons. f_equal.
  now rewrite str_app_assoc.
Qed.

Lemma brace_free_inv (s : string) :
  brace_free s = true -> contains "{" s = false /\ contains "}" s = false.
Proof.
  unfold brace_free. intros H. apply andb_true_iff in H as [H1 H2].
  now rewrite negb_true_iff in H1, H2.
Qed.

(** where the first closing brace past position 0 is, when a placeholder
    follows a prefix that has none there *)
Lemma first_close_after (pfx name more : string) :
  contains "}" (str_drop 1 pfx) = false ->
  contains "}" name = false ->
  first_index "}" (str_drop 1 (pfx ++ placeholder name ++ more)) =
  Some (String.length pfx + String.length name)%nat.
Proof.
  intros Hp Hn. rewrite placeholder_app.
  assert (Hname : first_index "}" (name ++ String "}" more) =
                  Some (String.length name + 0)%nat).
  { rewrite first_index_app.
    apply first_index_none in Hn. now rewrite Hn. }
  destruct pfx as [|a pfx].
  - rewrite str_app_nil. simpl. rewrite Hname. f_equal. lia.
  - rewrite str_app_cons. simpl in *.
    rewrite first_index_app. apply first_index_none in Hp. rewrite Hp.
    simpl. rewrite Hname. simpl. f_equal. lia.
Qed.

(** one placeholder is consumed: its name is listed and the cursor lands on
    its closing brace *)
Lemma scan_field (fuel : nat) (done pfx name more : string) :
  contains "{" pfx = false ->
  contains "}" (str_drop 1 pfx) = false ->
  brace_free name = true ->
  onto_scan (S fuel) (done ++ pfx ++ placeholder name ++ more)
    (String.length done) =
  name :: onto_scan fuel (done ++ pfx ++ placeholder name ++ more)
            (String.length done + String.length pfx + S (String.length name)).
Proof.
  intros Hpo Hpc Hn. apply brace_free_inv in Hn as [Hno Hnc].
  simpl Spec.scan.
  rewrite next_index_app_at, next_index_app_after.
  rewrite first_close_after by assumption.
  rewrite first_index_app. apply first_index_none in Hpo. rewrite Hpo.
  rewrite placeholder_app. simpl.
  destruct (Nat.ltb_spec
              (S (String.length done + (String.length pfx + String.length name)))
              (String.length done + (String.length pfx + 0))); [lia|].
  f_equal.
  - replace (done ++ pfx ++ String "{" (name ++ String "}" more))
      with ((done ++ pfx ++ String "{" EmptyString) ++ name ++ String "}" more)
      by (rewrite !str_app_assoc; reflexivity).
    apply between_exact; rewrite !str_app_length; simpl; lia.
  - f_equal. lia.
Qed.

Lemma no_matched_pair_get (r : string) (i j : nat) :
  no_matched_pair r = true ->
  String.get i r = Some "{"%char -> String.get j r = Some "}"%char ->
  (j < i)%nat.
Proof.
  revert i j; induction r as [|a r IH]; intros i j H Hi Hj;
    [discriminate|].
  simpl in H. destruct (Ascii.eqb a "{") eqn:E.
  - apply Ascii.eqb_eq in E. subst a.
    destruct j as [|j]; [discriminate|]. simpl in Hj.
    apply contains_get in Hj. rewrite Hj in H. discriminate.
  - destruct i as [|i]; simpl in Hi.
    { injection Hi as ->. discriminate. }
    destruct j as [|j]; [lia|]. simpl in Hj.
    specialize (IH i j H Hi Hj). lia.
Qed.

(** nothing is listed once the rest of the text has no matched pair *)
Lemma scan_stop (fuel : nat) (done pfx r : string) :
  contains "{" pfx = false ->
  contains "}" (str_drop 1 pfx) = false ->
  no_matched_pair r = true ->
  onto_scan fuel (done ++ pfx ++ r) (String.length done) = [].
Proof.
  intros Hpo Hpc Hr. destruct fuel as [|fuel]; [reflexivity|].
  simpl Spec.scan.
  destruct (Spec.next_index "{" _ _) as [o|] eqn:Eo; [|reflexivity].
  destruct (Spec.next_index "}" _ _) as [c|] eqn:Ec; [|reflexivity].
  apply next_index_bounds in Eo as [Ho Go], Ec as [Hc Gc].
  rewrite get_app in Go, Gc.
  destruct (Nat.ltb_spec o (String.length done)); [lia|].
  destruct (Nat.ltb_spec c (String.length done)); [lia|].
  rewrite get_app in Go, Gc.
  destruct (Nat.ltb_spec (o - String.length done) (String.length pfx)).
  { apply contains_get in Go. congruence. }
  destruct (Nat.ltb_spec (c - String.length done) (String.length pfx)).
  { destruct (c - String.length done)%nat as [|k] eqn:Ek; [lia|].
    change (S k) with (1 + k)%nat in Gc. rewrite <- get_drop in Gc.
    apply contains_get in Gc. congruence. }
  pose proof (no_matched_pair_get _ _ _ Hr Go Gc).
  destruct (Nat.ltb_spec c o); [reflexivity | lia].
Qed.

Lemma scan_template (segs : list segment) :
  forall (fuel : nat) (done pfx r : string),
    contains "{" pfx = false ->
    contains "}" (str_drop 1 pfx) = false ->
    forallb plain_segment segs = true ->
    no_matched_pair r = true ->
    (String.length (pfx ++ render segs ++ r) <= fuel)%nat ->
    onto_scan fuel (done ++ pfx ++ render segs ++ r) (String.length done) =
    names segs.
Proof.
  induction segs as [|[s|name] segs IH];
    intros fuel done pfx r Hpo Hpc Hsegs Hr Hfuel; simpl in Hsegs.
  - simpl render. rewrite str_app_nil. now apply scan_stop.
  - apply andb_true_iff in Hsegs as [Hs Hsegs].
    apply brace_free_inv in Hs as [Hso Hsc].
    simpl render in *. rewrite str_app_assoc, <- (str_app_assoc pfx) in *.
    simpl names. apply IH; try assumption.
    + rewrite contains_app, Hpo, Hso. reflexivity.
    + destruct pfx as [|a pfx].
      * rewrite str_app_nil. now apply contains_drop.
      * rewrite str_app_cons. simpl in *.
        rewrite contains_app, Hpc, Hsc. reflexivity.
  - apply andb_true_iff in Hsegs as [Hn Hsegs].
    simpl render in *. rewrite str_app_assoc in *.
    rewrite !str_app_length in Hfuel. unfold placeholder in Hfuel.
    simpl in Hfuel. rewrite str_app_length in Hfuel. simpl in Hfuel.
    destruct fuel as [|fuel]; [lia|].
    rewrite scan_field by assumption. simpl names. f_equal.
    replace (done ++ pfx ++ placeholder name ++ render segs ++ r)
      with ((done ++ pfx ++ String "{" name)
              ++ String "}" EmptyString ++ render segs ++ r).
    2:{ rewrite placeholder_app, !str_app_assoc. reflexivity. }
    replace (String.length done + String.length pfx + S (String.length name))%nat
      with (String.length (done ++ pfx ++ String "{" name))
      by (rewrite !str_app_length; simpl; lia).
    apply IH; try assumption; try reflexivity.
    rewrite str_app_cons, str_app_nil. simpl.
    rewrite str_app_length in *. lia.
Qed.

Lemma get_parameters_run_template (segs : list segment) (r : string) :
  forallb plain_segment segs = true ->
  no_matched_pair r = true ->
  get_parameters_run (render segs ++ r) = Some (names segs).
Proof.
  intros Hsegs Hr. rewrite get_parameters_run_scan. f_equal.
  unfold Spec.extract_onto_brace.
  apply (scan_template segs _ EmptyString EmptyString r); auto.
Qed.

(** nothing is listed either once the rest of the text starts with a
    closing brace that is not the first character looked at *)
Lemma scan_stop_close (fuel : nat) (done pfx r : string) :
  contains "{" pfx = false ->
  contains "}" (str_drop 1 pfx) = false ->
  is_empty pfx = false ->
  onto_scan fuel (done ++ pfx ++ String "}" r) (String.length done) = [].
Proof.
  intros Hpo Hpc Hne. destruct fuel as [|fuel]; [reflexivity|].
  destruct pfx as [|a pfx]; [discriminate|].
  simpl Spec.scan.
  rewrite next_index_app_at, next_index_app_after.
  rewrite first_index_app. apply first_index_none in Hpo. rewrite Hpo.
  rewrite str_app_cons. simpl str_drop. simpl in Hpc.
  rewrite first_index_app. apply first_index_none in Hpc. rewrite Hpc.
  simpl.
  destruct (first_index "{" r) as [k|]; simpl; [|reflexivity].
  destruct (Nat.ltb_spec (S (String.length done + (String.length pfx + 0)))
              (String.length done + S (String.length pfx + S k)));
    [reflexivity | lia].
Qed.

Lemma scan_template_close (segs : list segment) :
  forall (fuel : nat) (done pfx r : string),
    contains "{" pfx = false ->
    contains "}" (str_drop 1 pfx) = false ->
    forallb plain_segment segs = true ->
    is_empty (pfx ++ render segs) = false ->
    (String.length (pfx ++ render segs ++ String "}" r) <= fuel)%nat ->
    onto_scan fuel (done ++ pfx ++ render segs ++ String "}" r)
      (String.length done) =
    names segs.
Proof.
  induction segs as [|[s|name] segs IH];
    intros fuel done pfx r Hpo Hpc Hsegs Hne Hfuel; simpl in Hsegs.
  - simpl render in *. rewrite str_app_nil. rewrite str_app_empty_r in Hne.
    now apply scan_stop_close.
  - apply andb_true_iff in Hsegs as [Hs Hsegs].
    apply brace_free_inv in Hs as [Hso Hsc].
    simpl render in *. rewrite str_app_assoc, <- (str_app_assoc pfx) in *.
    simpl names. apply IH; try assumption.
    + rewrite contains_app, Hpo, Hso. reflexivity.
    + destruct pfx as [|a pfx].
      * rewrite str_app_nil. now apply contains_drop.
      * rewrite str_app_cons. simpl in *.
        rewrite contains_app, Hpc, Hsc. reflexivity.
  - apply andb_true_iff in Hsegs as [Hn Hsegs].
    simpl render in *. rewrite str_app_assoc in *.
    rewrite !str_app_length in Hfuel. unfold placeholder in Hfuel.
    simpl in Hfuel. rewrite str_app_length in Hfuel. simpl in Hfuel.
    destruct fuel as [|fuel]; [lia|].
    rewrite scan_field by assumption. simpl names. f_equal.
    replace (done ++ pfx ++ placeholder name ++ render segs ++ String "}" r)
      with ((done ++ pfx ++ String "{" name)
              ++ String "}" EmptyString ++ render segs ++ String "}" r).
    2:{ rewrite placeholder_app, !str_app_assoc. reflexivity. }
    replace (String.length done + String.length pfx + S (String.length name))%nat
      with (String.length (done ++ pfx ++ String "{" name))
      by (rewrite !str_app_length; simpl; lia).
    apply IH; try assumption; try reflexivity.
    rewrite str_app_cons, str_app_nil. simpl.
    rewrite str_app_length in *. simpl in *. lia.
Qed.

Lemma get_parameters_run_template_close (segs : list segment) (r : string) :
  forallb plain_segment segs = true ->
  starts_with_close r = true ->
  is_empty (render segs) = false ->
  get_parameters_run (render segs ++ r) = Some (names segs).
Proof.
  intros Hsegs Hr Hne. rewrite get_parameters_run_scan. f_equal.
  destruct r as [|a r]; [discriminate|].
  simpl in Hr. apply Ascii.eqb_eq in Hr. subst a.
  unfold Spec.extract_onto_brace.
  apply (scan_template_close segs _ EmptyString EmptyString r); auto.
Qed.

End TemplateScan.

(** C9 does not hold for every string with unbalanced braces. On [{a{b}]
    the name listed is [a{b], taken from the malformed part. A closing
    brace with nothing to match ends the list when something stands before
    it, as on [x}{a}], and is passed over when it is the first character,
    as on [}{a}]. *)
Lemma get_parameters_keeps_malformed_part :
  get_parameters "{a{b}" = ["a{b"] /\
  get_parameters "x}{a}" = [] /\
  get_parameters "}{a}" = ["a"].
Proof. repeat split. Qed.

(** C9, as amended. [get_parameters] finishes on every text. On a text made of
    literal text and placeholders, none with a brace inside, followed by a
    remainder, it returns the names found before the remainder and nothing
    from it, when the remainder has no opening brace with a closing brace
    after it, or when the remainder starts with a closing brace and is not
    the start of the text. The text [{foo] is the case with nothing before
    the remainder. *)
Theorem get_parameters_unbalanced_remainder
    (segs : list Template.segment) (r : string) :
  forallb Template.plain_segment segs = true ->
  Template.no_matched_pair r = true \/
  (Template.starts_with_close r = true /\
   PyStr.is_empty (Template.render segs) = false) ->
  (forall text, exists params, get_parameters_run text = Some params) /\
  get_parameters_run (Template.render segs ++ r) = Some (Template.names segs) /\
  get_parameters (Template.render segs ++ r) = Template.names segs.
Proof.
  intros Hsegs Hr.
  assert (H : get_parameters_run (Template.render segs ++ r) =
              Some (Template.names segs)).
  { destruct Hr as [Hr|[Hr Hne]].
    - exact (get_parameters_run_template segs r Hsegs Hr).
    - exact (get_parameters_run_template_close segs r Hsegs Hr Hne). }
  split; [intros text; eauto using get_parameters_run_scan|].
  split; [exact H|]. unfold get_parameters. now rewrite H.
Qed.

Lemma get_parameters_unbalanced_remainder_witness :
  get_parameters "//a[{x}]}{b}" = ["x"] /\
  get_parameters "{a}{b}{c" = ["a"; "b"] /\
  get_parameters "{foo" = [].
Proof.
  split; [|split].
  - exact (proj2 (proj2
      (get_parameters_unbalanced_remainder
         [Template.Lit "//a["; Template.Field "x"; Template.Lit "]"] "}{b}"
         eq_refl (or_intror (conj eq_refl eq_refl))))).
  - exact (proj2 (proj2
      (get_parameters_unbalanced_remainder
         [Template.Field "a"; Template.Field "b"] "{c"
         eq_refl (or_introl eq_refl)))).
  - exact (proj2 (proj2
      (get_parameters_unbalanced_remainder [] "{foo"
         eq_refl (or_introl eq_refl)))).
Defined.

(** ** [format] on a template of literal text and simple placeholders *)

Section FormatTemplate.

Import Template.

Variable kwargs : gmap string pyobj.

Lemma format_scan_char (c : ascii) (rest : string) :
  Ascii.eqb c "{" = false -> Ascii.eqb c "}" = false ->
  format_scan kwargs InLiteral (String c rest) =
  emit c (format_scan kwargs InLiteral rest).
Proof. intros H1 H2. simpl. now rewrite H1, H2. Qed.

Lemma format_scan_open (c : ascii) (rest : string) :
  Ascii.eqb c "{" = false ->
  format_scan kwargs InLiteral (String "{" (String c rest)) =
  format_scan kwargs (InName EmptyString) (String c rest).
Proof.
  intros H.
  change (format_scan kwargs InLiteral (String "{" (String c rest)))
    with (if Ascii.eqb c "{"
          then emit "{" (format_scan kwargs InLiteral rest)
          else format_scan kwargs (InName EmptyString) (String c rest)).
  now rewrite H.
Qed.

Lemma format_scan_literal (s rest : string) :
  brace_free s = true ->
  format_scan kwargs InLiteral (s ++ rest) =
  bind (format_scan kwargs InLiteral rest) (fun r => Return (s ++ r)).
Proof.
  intros H. apply brace_free_inv in H as [Ho Hc].
  induction s as [|a s IH].
  - rewrite str_app_nil. now destruct (format_scan kwargs InLiteral rest).
  - simpl in Ho, Hc. apply orb_false_elim in Ho as [Ho1 Ho2].
    apply orb_false_elim in Hc as [Hc1 Hc2].
    rewrite str_app_cons, format_scan_char by assumption.
    rewrite (IH Ho2 Hc2). unfold emit.
    now destruct (format_scan kwargs InLiteral rest).
Qed.

Lemma format_scan_name_char (name : string) (c : ascii) (rest : string) :
  name_char c = true ->
  format_scan kwargs (InName name) (String c rest) =
  format_scan kwargs (InName (push name c)) rest.
Proof.
  unfold name_char. rewrite negb_true_iff. intros H.
  repeat (apply orb_false_elim in H as [H ?]).
  simpl. now rewrite H, H0, H1, H2, H3.
Qed.

Lemma format_scan_name (name : string) :
  forall (acc rest : string),
    name_chars name = true ->
    format_scan kwargs (InName acc) (name ++ String "}" rest) =
    bind (render_field kwargs (acc ++ name) None EmptyString) (fun v =>
    bind (format_scan kwargs InLiteral rest) (fun r => Return (v ++ r))).
Proof.
  induction name as [|c name IH]; intros acc rest H.
  - rewrite str_app_nil, str_app_empty_r. reflexivity.
  - simpl in H. apply andb_true_iff in H as [Hc H].
    rewrite str_app_cons, format_scan_name_char by assumption.
    rewrite IH by assumption. unfold push.
    now rewrite str_app_assoc.
Qed.

Lemma contains_name_chars (s : string) :
  contains "{" s = false -> contains "}" s = false ->
  contains "[" s = false -> contains ":" s = false ->
  contains "!" s = false -> name_chars s = true.
Proof.
  induction s as [|c s IH]; simpl; [reflexivity|]. intros H1 H2 H3 H4 H5.
  apply orb_false_elim in H1 as [? ?], H2 as [? ?], H3 as [? ?],
    H4 as [? ?], H5 as [? ?].
  rewrite IH by assumption. unfold name_char.
  now repeat match goal with H : Ascii.eqb _ _ = false |- _ => rewrite H; clear H end.
Qed.

Lemma split_first_plain (s : string) :
  contains "." s = false -> contains "[" s = false ->
  split_first s = (s, EmptyString).
Proof.
  induction s as [|c s IH]; simpl; [reflexivity|]. intros H1 H2.
  apply orb_false_elim in H1 as [E1 H1], H2 as [E2 H2].
  now rewrite E1, E2, IH.
Qed.

(** what [simple_name] says, one fact at a time *)
Lemma simple_name_inv (name : string) :
  simple_name name = true ->
  is_empty name = false /\ all_digits name = false /\
  brace_free name = true /\ name_chars name = true /\
  split_first name = (name, EmptyString).
Proof.
  unfold simple_name. intros H.
  apply andb_true_iff in H as [H Hcolon], H as [H Hbang], H as [H Hidx],
    H as [H Hdot], H as [H Hfree], H as [Hempty Hdigits].
  rewrite negb_true_iff in *.
  pose proof (brace_free_inv _ Hfree) as [? ?].
  repeat split; auto using contains_name_chars, split_first_plain.
Qed.

Lemma render_field_simple (name : string) (v : pyobj) :
  simple_name name = true -> kwargs !! name = Some v ->
  render_field kwargs name None EmptyString = Return (py_str v).
Proof.
  intros H Hv. apply simple_name_inv in H as (He & Hd & _ & _ & Hs).
  unfold render_field, get_field_object.
  now rewrite Hs, He, Hd, Hv.
Qed.

Lemma format_scan_placeholder (name rest : string) (v : pyobj) :
  simple_name name = true -> kwargs !! name = Some v ->
  format_scan kwargs InLiteral (placeholder name ++ rest) =
  bind (format_scan kwargs InLiteral rest) (fun r => Return (py_str v ++ r)).
Proof.
  intros H Hv. pose proof (simple_name_inv _ H) as (He & _ & Hb & Hn & _).
  rewrite placeholder_app.
  destruct name as [|c name]; [discriminate|].
  apply brace_free_inv in Hb as [Ho _]. simpl in Ho.
  apply orb_false_elim in Ho as [Ho _].
  rewrite str_app_cons, format_scan_open by assumption.
  rewrite <- str_app_cons, (format_scan_name _ EmptyString) by assumption.
  rewrite str_app_nil, (render_field_simple _ v) by assumption.
  reflexivity.
Qed.

Lemma format_template (segs : list segment) :
  forallb simple_segment segs = true ->
  complete kwargs (names segs) ->
  format (render segs) kwargs = Return (fill kwargs segs).
Proof.
  unfold format.
  induction segs as [|[s|name] segs IH]; intros Hs Hc; simpl in Hs.
  - reflexivity.
  - apply andb_true_iff in Hs as [Hs Hsegs]. simpl.
    rewrite format_scan_literal, IH by assumption. reflexivity.
  - apply andb_true_iff in Hs as [Hn Hsegs].
    destruct (Hc name (or_introl eq_refl)) as [v Hv].
    change (render (Field name :: segs)) with (placeholder name ++ render segs).
    simpl fill.
    rewrite (format_scan_placeholder _ _ v), IH, Hv; auto.
    intros p Hp. apply Hc. now right.
Qed.

End FormatTemplate.

(** ** [get_by]: the missing-argument errors and the unparameterised case *)

Section LocatorFacts.

Import Locator Template.

Lemma is_parameterized_true (self : Locator.t) :
  parameters self <> [] -> is_parameterized self = true.
Proof.
  unfold is_parameterized. destruct (parameters self); [congruence|].
  reflexivity.
Qed.

Lemma is_parameterized_false (self : Locator.t) :
  parameters self = [] -> is_parameterized self = false.
Proof. unfold is_parameterized. now intros ->. Qed.

Lemma size_eqb_empty (kwargs : gmap string pyobj) :
  kwargs <> ∅ -> (size kwargs =? 0)%nat = false.
Proof.
  intros H. apply Nat.eqb_neq. intros Hs. apply H.
  now apply map_size_empty_iff.
Qed.

Lemma validate_loop_complete (params : list string) (kwargs : gmap string pyobj) :
  complete kwargs params -> validate_loop params kwargs = Return tt.
Proof.
  induction params as [|p params IH]; intros Hc; [reflexivity|].
  simpl. destruct (Hc p (or_introl eq_refl)) as [v ->].
  apply IH. intros q Hq. apply Hc. now right.
Qed.

Lemma validate_loop_first_missing (found : list string) (missing : string)
    (rest : list string) (kwargs : gmap string pyobj) :
  complete kwargs found -> kwargs !! missing = None ->
  validate_loop (found ++ missing :: rest) kwargs =
  Raise (ValueError ("get_by method is missing keyword argument: " ++ missing)).
Proof.
  induction found as [|p found IH]; intros Hc Hm; simpl.
  - now rewrite Hm.
  - destruct (Hc p (or_introl eq_refl)) as [v ->].
    apply IH; [|assumption]. intros q Hq. apply Hc. now right.
Qed.

Lemma first_missing_exists (params : list string) (kwargs : gmap string pyobj) :
  (exists p, In p params /\ kwargs !! p = None) ->
  exists found missing rest,
    params = (found ++ missing :: rest)%list /\
    complete kwargs found /\ kwargs !! missing = None.
Proof.
  induction params as [|q params IH]; intros (p & Hp & Hnone);
    [contradiction|].
  destruct (kwargs !! q) as [v|] eqn:Eq.
  - destruct Hp as [->|Hp]; [congruence|].
    destruct IH as (found & missing & rest & -> & Hc & Hm); [eauto|].
    exists (q :: found), missing, rest. repeat split; auto.
    intros x [<-|Hx]; [now rewrite Eq | now apply Hc].
  - exists [], q, params. repeat split; auto. intros x [].
Qed.

Lemma join_infix (sep x : string) (l : list string) :
  In x l -> exists pre post, join sep l = pre ++ x ++ post.
Proof.
  induction l as [|y l IH]; intros H; [contradiction|].
  destruct H as [->|H].
  - destruct l as [|z l].
    + exists EmptyString, EmptyString. simpl.
      now rewrite str_app_nil, str_app_empty_r.
    + exists EmptyString, (sep ++ join sep (z :: l)). reflexivity.
  - destruct (IH H) as (pre & post & E).
    destruct l as [|z l]; [contradiction|].
    exists (y ++ sep ++ pre), post.
    change (join sep (y :: z :: l)) with (y ++ sep ++ join sep (z :: l)).
    now rewrite E, !str_app_assoc.
Qed.

Lemma repr_list_infix (p : string) (params : list string) :
  In p params ->
  exists pre post, repr_list params = pre ++ repr p ++ post.
Proof.
  intros H. apply (in_map repr) in H.
  destruct (join_infix ", " _ _ H) as (pre & post & E).
  exists ("[" ++ pre), (post ++ "]"). unfold repr_list.
  now rewrite E, !str_app_assoc.
Qed.

Lemma get_by_not_parameterized (self : Locator.t) (kwargs : gmap string pyobj) :
  parameters self = [] ->
  get_by self kwargs = Return (Using_value (using_ self), value self).
Proof.
  intros H. unfold get_by, get_value. now rewrite is_parameterized_false.
Qed.

End LocatorFacts.

(** C3. A locator with at least one extracted parameter, resolved without
    any keyword argument, raises the [ValueError] whose message ends with
    the [repr] of the whole parameter list; the [repr] of every extracted
    name is part of that message. *)
Theorem get_by_without_arguments (self : Locator.t) :
  Locator.parameters self <> [] ->
  Locator.get_by self ∅ =
    Raise (ValueError ("get_by method is missing keyword arguments: "
                       ++ repr_list (Locator.parameters self))) /\
  forall p, In p (Locator.parameters self) ->
    exists pre post,
      "get_by method is missing keyword arguments: "
        ++ repr_list (Locator.parameters self) = pre ++ repr p ++ post.
Proof.
  intros H. split.
  - unfold Locator.get_by, Locator.get_value, Locator.parameterize_value.
    now rewrite is_parameterized_true.
  - intros p Hp. destruct (repr_list_infix p _ Hp) as (pre & post & E).
    exists ("get_by method is missing keyword arguments: " ++ pre), post.
    now rewrite E, !str_app_assoc.
Qed.

Lemma get_by_without_arguments_witness :
  Locator.parameters (Locator.init Locator.XPATH "//a[@x='{foo}'][{bar}]" None)
    = ["foo"; "bar"] /\
  Locator.get_by (Locator.init Locator.XPATH "//a[@x='{foo}'][{bar}]" None) ∅ =
    Raise (ValueError
             "get_by method is missing keyword arguments: ['foo', 'bar']").
Proof.
  split; [reflexivity|].
  refine (proj1 (get_by_without_arguments
                   (Locator.init Locator.XPATH "//a[@x='{foo}'][{bar}]" None) _)).
  discriminate.
Defined.

(** C4. A locator resolved with keyword arguments that are not empty but
    leave out some extracted parameter raises the [ValueError] that names
    the first parameter, in extraction order, that is not a keyword. *)
Theorem get_by_missing_argument (self : Locator.t) (kwargs : gmap string pyobj) :
  kwargs <> ∅ ->
  (exists p, In p (Locator.parameters self) /\ kwargs !! p = None) ->
  exists found missing rest,
    Locator.parameters self = (found ++ missing :: rest)%list /\
    Template.complete kwargs found /\
    kwargs !! missing = None /\
    Locator.get_by self kwargs =
      Raise (ValueError ("get_by method is missing keyword argument: "
                         ++ missing)).
Proof.
  intros Hne Hex.
  destruct (first_missing_exists _ _ Hex) as (found & missing & rest & E & Hc & Hm).
  exists found, missing, rest. repeat split; try assumption.
  unfold Locator.get_by, Locator.get_value, Locator.parameterize_value,
    Locator.validate_parameters.
  rewrite is_parameterized_true by (rewrite E; now destruct found).
  rewrite size_eqb_empty by assumption.
  now rewrite E, validate_loop_first_missing.
Qed.

Lemma get_by_missing_argument_witness :
  exists found missing rest,
    Locator.parameters (Locator.init Locator.CSS "{a}-{b}-{c}" None)
      = (found ++ missing :: rest)%list /\
    Template.complete (<["a" := PyStr "x"]> (<["c" := PyInt 3]> ∅)) found /\
    (<["a" := PyStr "x"]> (<["c" := PyInt 3]> ∅) : gmap string pyobj) !! missing
      = None /\
    Locator.get_by (Locator.init Locator.CSS "{a}-{b}-{c}" None)
      (<["a" := PyStr "x"]> (<["c" := PyInt 3]> ∅)) =
      Raise (ValueError ("get_by method is missing keyword argument: "
                         ++ missing)).
Proof.
  apply get_by_missing_argument.
  - apply insert_non_empty.
  - exists "b". split; [vm_compute; tauto | reflexivity].
Defined.

(** C6. A locator without extracted parameters resolves to its value as it
    stands, whatever the keyword arguments. *)
Theorem get_by_unparameterized (self : Locator.t) (kwargs : gmap string pyobj) :
  Locator.parameters self = [] ->
  Locator.get_by self kwargs =
    Return (Locator.Using_value (Locator.using_ self), Locator.value self).
Proof. apply get_by_not_parameterized. Qed.

Lemma get_by_unparameterized_witness :
  Locator.get_by (Locator.init Locator.XPATH "//button" None)
    (<["button_name" := PyStr "foo"]> ∅) = Return ("xpath", "//button").
Proof.
  exact (get_by_unparameterized (Locator.init Locator.XPATH "//button" None)
           (<["button_name" := PyStr "foo"]> ∅) eq_refl).
Defined.

(** ** [get_by] on a template of literal text and simple placeholders *)

Section ResolveTemplate.

Import Locator Template.

Lemma simple_is_plain (segs : list segment) :
  forallb simple_segment segs = true -> forallb plain_segment segs = true.
Proof.
  induction segs as [|[s|name] segs IH]; simpl; intros H; auto;
    apply andb_true_iff in H as [H1 H2]; rewrite IH by assumption.
  - now rewrite H1.
  - apply simple_name_inv in H1 as (_ & _ & -> & _). reflexivity.
Qed.

Lemma parameters_template (u : Using) (segs : list segment) :
  forallb simple_segment segs = true ->
  parameters (init u (render segs) None) = names segs.
Proof.
  intros H. unfold parameters, init. simpl.
  rewrite <- (str_app_empty_r (render segs)).
  unfold get_parameters.
  now rewrite get_parameters_run_template by auto using simple_is_plain.
Qed.

Lemma fill_no_fields (kwargs : gmap string pyobj) (segs : list segment) :
  names segs = [] -> fill kwargs segs = render segs.
Proof.
  induction segs as [|[s|name] segs IH]; simpl; intros H;
    [reflexivity | now rewrite IH | discriminate].
Qed.

Lemma fill_ext (kwargs kwargs' : gmap string pyobj) (segs : list segment) :
  (forall p, In p (names segs) -> kwargs' !! p = kwargs !! p) ->
  fill kwargs' segs = fill kwargs segs.
Proof.
  induction segs as [|[s|name] segs IH]; simpl; intros H.
  - reflexivity.
  - now rewrite IH.
  - rewrite (H name) by now left. rewrite IH; [reflexivity|].
    intros p Hp. apply H. now right.
Qed.

Lemma complete_non_empty (kwargs : gmap string pyobj) (params : list string) :
  params <> [] -> complete kwargs params -> kwargs <> ∅.
Proof.
  destruct params as [|p params]; [congruence|]. intros _ Hc ->.
  destruct (Hc p (or_introl eq_refl)) as [v Hv].
  rewrite lookup_empty in Hv. discriminate.
Qed.

(** with every extracted parameter among the keywords, neither
    missing-argument error is raised: the outcome is that of [format] *)
Lemma get_by_complete (self : Locator.t) (kwargs : gmap string pyobj) :
  parameters self <> [] -> complete kwargs (parameters self) ->
  get_by self kwargs =
  bind (format (value self) kwargs)
       (fun v => Return (Using_value (using_ self), v)).
Proof.
  intros Hne Hc.
  unfold get_by, get_value, parameterize_value, validate_parameters.
  rewrite is_parameterized_true by assumption.
  rewrite size_eqb_empty by eauto using complete_non_empty.
  now rewrite validate_loop_complete.
Qed.

Lemma get_by_template (u : Using) (segs : list segment)
    (kwargs : gmap string pyobj) :
  forallb simple_segment segs = true ->
  complete kwargs (names segs) ->
  get_by (init u (render segs) None) kwargs =
  Return (Using_value u, fill kwargs segs).
Proof.
  intros Hs Hc.
  pose proof (parameters_template u segs Hs) as Hp.
  destruct (names segs) as [|p ps] eqn:En.
  - rewrite get_by_not_parameterized by assumption. simpl.
    now rewrite fill_no_fields.
  - rewrite get_by_complete.
    + simpl value. rewrite format_template; [reflexivity | assumption |].
      now rewrite En.
    + rewrite Hp. discriminate.
    + now rewrite Hp.
Qed.

End ResolveTemplate.

(** ** Literal substitution and occurrences on a template *)

Section Substitution.

Import Locator Template.

Variable kwargs : gmap string pyobj.

Lemma prefix_cons (a b : ascii) (s1 s2 : string) :
  String.prefix (String a s1) (String b s2) =
  if ascii_dec a b then String.prefix s1 s2 else false.
Proof. reflexivity. Qed.

Lemma prefix_app (s t : string) : String.prefix s (s ++ t) = true.
Proof.
  induction s as [|a s IH]; [now destruct t|].
  rewrite str_app_cons, prefix_cons.
  destruct (ascii_dec a a); [exact IH | congruence].
Qed.

Lemma prefix_brace (pat : string) (c : ascii) (rest : string) :
  Ascii.eqb c "{" = false ->
  String.prefix (String "{" pat) (String c rest) = false.
Proof.
  intros H. rewrite prefix_cons.
  destruct (ascii_dec "{" c) as [<-|]; [discriminate | reflexivity].
Qed.

Lemma prefix_until_close (p : string) :
  forall (n x y : string),
    contains "}" p = false -> contains "}" n = false ->
    String.prefix (p ++ String "}" x) (n ++ String "}" y) = true -> p = n.
Proof.
  induction p as [|a p IH]; intros [|b n] x y Hp Hn H.
  - reflexivity.
  - rewrite str_app_nil, str_app_cons, prefix_cons in H. simpl in Hn.
    destruct (ascii_dec "}" b) as [<-|]; discriminate.
  - rewrite str_app_nil, str_app_cons, prefix_cons in H. simpl in Hp.
    destruct (ascii_dec a "}") as [->|]; discriminate.
  - rewrite !str_app_cons, prefix_cons in H. simpl in Hp, Hn.
    apply orb_false_elim in Hp as [_ Hp], Hn as [_ Hn].
    destruct (ascii_dec a b) as [->|]; [|discriminate].
    f_equal. eauto.
Qed.

Lemma prefix_placeholder (p n rest : string) :
  contains "}" p = false -> contains "}" n = false ->
  String.prefix (placeholder p) (placeholder n ++ rest) = true -> p = n.
Proof.
  intros Hp Hn H. rewrite placeholder_app in H. unfold placeholder in H.
  rewrite prefix_cons in H. destruct (ascii_dec "{" "{"); [|congruence].
  eauto using prefix_until_close.
Qed.

Lemma placeholder_at_cons (p : string) (params : list string) (s : string) :
  Spec.placeholder_at (p :: params) s =
  if String.prefix (placeholder p) s then Some p
  else Spec.placeholder_at params s.
Proof. reflexivity. Qed.

Lemma placeholder_at_found (params : list string) (n rest : string) :
  Forall (fun p => contains "}" p = false) params ->
  In n params ->
  Spec.placeholder_at params (placeholder n ++ rest) = Some n.
Proof.
  intros Hall Hin.
  pose proof (proj1 (List.Forall_forall _ _) Hall n Hin) as Hn. simpl in Hn.
  induction Hall as [|p params Hp Hall IH]; [contradiction|].
  rewrite placeholder_at_cons.
  destruct (String.prefix (placeholder p) (placeholder n ++ rest)) eqn:E.
  - f_equal. exact (prefix_placeholder p n rest Hp Hn E).
  - destruct Hin as [->|Hin]; [|auto].
    rewrite prefix_app in E. discriminate.
Qed.

Lemma placeholder_at_other (params : list string) (c : ascii) (rest : string) :
  Ascii.eqb c "{" = false ->
  Spec.placeholder_at params (String c rest) = None.
Proof.
  intros H. induction params as [|p params IH]; [reflexivity|].
  rewrite placeholder_at_cons. unfold placeholder. now rewrite prefix_brace.
Qed.

Lemma substitute_cons (params : list string) (c : ascii) (rest : string) :
  Spec.substitute params kwargs O (String c rest) =
  match Spec.placeholder_at params (String c rest) with
  | Some p =>
      match kwargs !! p with
      | Some v =>
          py_str v ++ Spec.substitute params kwargs (S (String.length p)) rest
      | None => String c (Spec.substitute params kwargs O rest)
      end
  | None => String c (Spec.substitute params kwargs O rest)
  end.
Proof. reflexivity. Qed.

Lemma substitute_skip (params : list string) (s rest : string) :
  Spec.substitute params kwargs (String.length s) (s ++ rest) =
  Spec.substitute params kwargs O rest.
Proof.
  induction s as [|a s IH]; [reflexivity|].
  rewrite str_app_cons. exact IH.
Qed.

Lemma substitute_literal (params : list string) (s rest : string) :
  contains "{" s = false ->
  Spec.substitute params kwargs O (s ++ rest) =
  s ++ Spec.substitute params kwargs O rest.
Proof.
  induction s as [|a s IH]; intros H; [reflexivity|].
  simpl in H. apply orb_false_elim in H as [Ha H].
  rewrite !str_app_cons, substitute_cons, placeholder_at_other by assumption.
  now rewrite IH.
Qed.

Lemma substitute_placeholder (params : list string) (n rest : string) (v : pyobj) :
  Forall (fun p => contains "}" p = false) params ->
  In n params -> kwargs !! n = Some v ->
  Spec.substitute params kwargs O (placeholder n ++ rest) =
  py_str v ++ Spec.substitute params kwargs O rest.
Proof.
  intros Hall Hin Hv.
  pose proof (placeholder_at_found params n rest Hall Hin) as E.
  rewrite placeholder_app in *. rewrite substitute_cons, E, Hv. f_equal.
  replace (n ++ String "}" rest) with ((n ++ String "}" EmptyString) ++ rest)
    by now rewrite str_app_assoc.
  replace (S (String.length n)) with (String.length (n ++ String "}" EmptyString))
    by (rewrite str_app_length; simpl; lia).
  apply substitute_skip.
Qed.

Lemma substitute_template (params : list string) (segs : list segment) :
  Forall (fun p => contains "}" p = false) params ->
  incl (names segs) params ->
  forallb simple_segment segs = true ->
  complete kwargs (names segs) ->
  Spec.substitute params kwargs O (render segs) = fill kwargs segs.
Proof.
  intros Hall.
  induction segs as [|[s|name] segs IH]; intros Hi Hs Hc; simpl in Hs.
  - reflexivity.
  - apply andb_true_iff in Hs as [Hs Hsegs].
    apply brace_free_inv in Hs as [Ho _]. simpl.
    now rewrite substitute_literal, IH.
  - apply andb_true_iff in Hs as [_ Hsegs].
    destruct (Hc name (or_introl eq_refl)) as [v Hv].
    change (render (Field name :: segs)) with (placeholder name ++ render segs).
    simpl fill. rewrite Hv.
    rewrite (substitute_placeholder params name _ v); auto.
    + rewrite IH; auto.
      * intros p Hp. apply Hi. now right.
      * intros p Hp. apply Hc. now right.
    + apply Hi. now left.
Qed.

Lemma names_close_free (segs : list segment) :
  forallb simple_segment segs = true ->
  Forall (fun p => contains "}" p = false) (names segs).
Proof.
  induction segs as [|[s|name] segs IH]; simpl; intros H; auto;
    apply andb_true_iff in H as [H1 H2]; auto.
  constructor; auto.
  apply simple_name_inv in H1 as (_ & _ & Hb & _).
  now apply brace_free_inv in Hb.
Qed.

Lemma occurrences_literal (pat s rest : string) :
  contains "{" s = false ->
  Spec.occurrences (String "{" pat) (s ++ rest) =
  Spec.occurrences (String "{" pat) rest.
Proof.
  induction s as [|a s IH]; intros H; [reflexivity|].
  simpl in H. apply orb_false_elim in H as [Ha H].
  rewrite str_app_cons.
  change (Spec.occurrences (String "{" pat) (String a (s ++ rest)))
    with ((if String.prefix (String "{" pat) (String a (s ++ rest))
           then 1 else 0)
          + Spec.occurrences (String "{" pat) (s ++ rest))%nat.
  now rewrite prefix_brace, IH.
Qed.

Lemma occurrences_placeholder (n name rest : string) :
  brace_free n = true -> brace_free name = true ->
  Spec.occurrences (placeholder n) (placeholder name ++ rest) =
  ((if String.eqb name n then 1 else 0)
   + Spec.occurrences (placeholder n) rest)%nat.
Proof.
  intros Hn Hname.
  apply brace_free_inv in Hn as [_ Hn], Hname as [Ho Hc].
  assert (E : String.prefix (placeholder n) (placeholder name ++ rest)
              = String.eqb name n).
  { destruct (String.eqb_spec name n) as [->|Hne]; [apply prefix_app|].
    destruct (String.prefix _ _) eqn:E; [|reflexivity].
    apply prefix_placeholder in E; congruence. }
  rewrite placeholder_app in *.
  change (Spec.occurrences (placeholder n) (String "{" (name ++ String "}" rest)))
    with ((if String.prefix (placeholder n) (String "{" (name ++ String "}" rest))
           then 1 else 0)
          + Spec.occurrences (placeholder n) (name ++ String "}" rest))%nat.
  rewrite E. f_equal.
  replace (name ++ String "}" rest) with ((name ++ String "}" EmptyString) ++ rest)
    by now rewrite str_app_assoc.
  apply occurrences_literal.
  rewrite contains_app, Ho. reflexivity.
Qed.

Lemma occurrences_template (n : string) (segs : list segment) :
  brace_free n = true ->
  forallb simple_segment segs = true ->
  Spec.occurrences (placeholder n) (render segs) = field_count n segs.
Proof.
  intros Hn.
  induction segs as [|[s|name] segs IH]; intros H; simpl in H.
  - reflexivity.
  - apply andb_true_iff in H as [Hs H].
    apply brace_free_inv in Hs as [Ho _].
    change (render (Lit s :: segs)) with (s ++ render segs).
    unfold placeholder. rewrite occurrences_literal by assumption.
    now apply IH.
  - apply andb_true_iff in H as [Hname H].
    apply simple_name_inv in Hname as (_ & _ & Hb & _).
    change (render (Field name :: segs)) with (placeholder name ++ render segs).
    now rewrite occurrences_placeholder, IH.
Qed.

Lemma count_occ_names (n : string) (segs : list segment) :
  count_occ string_dec (names segs) n = field_count n segs.
Proof.
  induction segs as [|[s|name] segs IH]; simpl; auto.
  destruct (string_dec name n) as [->|Hne].
  - now rewrite String.eqb_refl, IH.
  - apply String.eqb_neq in Hne. now rewrite Hne, IH.
Qed.

End Substitution.

(** ** The claims on resolved templates *)

(** C5, as amended. When the template is literal text without braces
    interleaved with placeholders whose names are simple (not empty, not a
    number, without braces, dot, bracket, exclamation mark or colon), and
    every placeholder has a keyword, [get_by] returns the value of the
    strategy paired with the template in which every placeholder is
    literally replaced by the string form of its value. *)
Theorem get_by_substitutes_literally (u : Locator.Using)
    (segs : list Template.segment) (kwargs : gmap string pyobj) :
  forallb Template.simple_segment segs = true ->
  Template.names segs <> [] ->
  Template.complete kwargs (Template.names segs) ->
  Locator.get_by (Locator.init u (Template.render segs) None) kwargs =
  Return (Locator.Using_value u,
          Spec.literally_substituted
            (Locator.parameters (Locator.init u (Template.render segs) None))
            kwargs (Template.render segs)).
Proof.
  intros Hs Hne Hc.
  rewrite get_by_template, parameters_template by assumption.
  unfold Spec.literally_substituted.
  rewrite substitute_template;
    auto using names_close_free, incl_refl.
Qed.

Lemma get_by_substitutes_literally_witness :
  Template.render Examples.button_segments = Examples.button_template /\
  Locator.get_by Examples.parameterized_button
    (<["button_name" := PyStr "foo"]> ∅) =
  Return ("xpath", Examples.button_named "foo").
Proof.
  split; [reflexivity|].
  refine (get_by_substitutes_literally Locator.XPATH Examples.button_segments
            (<["button_name" := PyStr "foo"]> ∅) eq_refl _ _).
  - discriminate.
  - intros p [<-|[]]. vm_compute. eauto.
Defined.

(** C5 as stated fails where [format] reads a doubled closing brace as an
    escape: the template [{a}}}] has the one extracted parameter [a], the
    keyword [a] is given, and [get_by] returns [x}] where literal
    replacement of the placeholder gives [x}}]. *)
Lemma get_by_not_literal_on_escaped_brace :
  Locator.parameters (Locator.init Locator.XPATH "{a}}}" None) = ["a"] /\
  Locator.get_by (Locator.init Locator.XPATH "{a}}}" None)
    (<["a" := PyStr "x"]> ∅) = Return ("xpath", "x}") /\
  Spec.literally_substituted ["a"] (<["a" := PyStr "x"]> ∅) "{a}}}" = "x}}" /\
  Locator.get_by (Locator.init Locator.XPATH "{a}}}" None)
    (<["a" := PyStr "x"]> ∅) <>
  Return ("xpath",
          Spec.literally_substituted
            (Locator.parameters (Locator.init Locator.XPATH "{a}}}" None))
            (<["a" := PyStr "x"]> ∅) "{a}}}").
Proof. vm_compute. repeat split; discriminate. Qed.

(** C7, as amended. On a template of literal text without braces and
    placeholders with simple names, the extracted parameters hold a name
    as many times as its placeholder occurs in the template, without
    deduplication, and [get_by] replaces every occurrence by the string
    form of the value of its name. *)
Theorem parameters_once_per_occurrence (u : Locator.Using)
    (segs : list Template.segment) (kwargs : gmap string pyobj) (n : string) :
  forallb Template.simple_segment segs = true ->
  Template.brace_free n = true ->
  Template.complete kwargs (Template.names segs) ->
  count_occ string_dec
    (Locator.parameters (Locator.init u (Template.render segs) None)) n =
    Spec.occurrences (Template.placeholder n) (Template.render segs) /\
  Locator.parameters (Locator.init u (Template.render segs) None) =
    Template.names segs /\
  Locator.get_by (Locator.init u (Template.render segs) None) kwargs =
    Return (Locator.Using_value u, Template.fill kwargs segs).
Proof.
  intros Hs Hn Hc. repeat split.
  - rewrite parameters_template, occurrences_template by assumption.
    apply count_occ_names.
  - now apply parameters_template.
  - now apply get_by_template.
Qed.

Lemma parameters_once_per_occurrence_witness :
  count_occ string_dec
    (Locator.parameters (Locator.init Locator.ID "{a}-{a}" None)) "a" = 2%nat /\
  Spec.occurrences "{a}" "{a}-{a}" = 2%nat /\
  Locator.parameters (Locator.init Locator.ID "{a}-{a}" None) = ["a"; "a"] /\
  Locator.get_by (Locator.init Locator.ID "{a}-{a}" None)
    (<["a" := PyStr "x"]> ∅) = Return ("id", "x-x").
Proof.
  assert (Hc : Template.complete (<["a" := PyStr "x"]> ∅)
                 (Template.names
                    [Template.Field "a"; Template.Lit "-"; Template.Field "a"])).
  { intros p [<-|[<-|[]]]; vm_compute; eauto. }
  destruct (parameters_once_per_occurrence Locator.ID
              [Template.Field "a"; Template.Lit "-"; Template.Field "a"]
              (<["a" := PyStr "x"]> ∅) "a" eq_refl eq_refl Hc)
    as (H1 & H2 & H3).
  split; [exact (eq_trans H1 eq_refl)|].
  split; [reflexivity|].
  split; [exact H2 | exact H3].
Defined.

(** C7 as stated fails on a template in which a doubled closing brace
    follows the first placeholder: [{a}] occurs twice in [{a}}}{a}], and
    [get_by] replaces both occurrences, but [get_parameters] lists [a]
    once. *)
Lemma parameters_miss_second_occurrence :
  Spec.occurrences "{a}" "{a}}}{a}" = 2%nat /\
  get_parameters "{a}}}{a}" = ["a"] /\
  count_occ string_dec (get_parameters "{a}}}{a}") "a" <>
    Spec.occurrences "{a}" "{a}}}{a}" /\
  Locator.get_by (Locator.init Locator.XPATH "{a}}}{a}" None)
    (<["a" := PyStr "x"]> ∅) = Return ("xpath", "x}x").
Proof. vm_compute. repeat split; discriminate. Qed.

(** C10, as amended. When every extracted parameter is among the keywords,
    with or without further keywords, neither missing-argument error is
    raised: [get_by] does what [format] does on the value. When moreover
    the template is literal text without braces and placeholders with
    simple names, [get_by] returns the resolved string, and keywords that
    differ only outside the extracted parameters resolve to the same
    string. *)
Theorem get_by_with_extra_arguments (self : Locator.t)
    (kwargs : gmap string pyobj) :
  Locator.parameters self <> [] ->
  Template.complete kwargs (Locator.parameters self) ->
  Locator.get_by self kwargs =
    bind (format (Locator.value self) kwargs)
         (fun v => Return (Locator.Using_value (Locator.using_ self), v)) /\
  forall segs,
    forallb Template.simple_segment segs = true ->
    Locator.value self = Template.render segs ->
    Locator.parameter_extractor self = Locator.value self ->
    Locator.get_by self kwargs =
      Return (Locator.Using_value (Locator.using_ self),
              Template.fill kwargs segs) /\
    forall kwargs' : gmap string pyobj,
      (forall p, In p (Locator.parameters self) -> kwargs' !! p = kwargs !! p) ->
      Locator.get_by self kwargs' = Locator.get_by self kwargs.
Proof.
  intros Hne Hc. split; [now apply get_by_complete|].
  intros segs Hs Hv He. destruct self as [u value pe]. simpl in Hv, He.
  subst pe value.
  change {| Locator.using_ := u; Locator.value := Template.render segs;
            Locator.parameter_extractor := Template.render segs |}
    with (Locator.init u (Template.render segs) None) in *.
  rewrite parameters_template in * by assumption.
  split; [now apply get_by_template|].
  intros kwargs' Hsame.
  rewrite !get_by_template; try assumption.
  - now rewrite (fill_ext kwargs kwargs').
  - intros p Hp. rewrite (Hsame p Hp). now apply Hc.
Qed.

Lemma get_by_with_extra_arguments_witness :
  Locator.parameters (Locator.init Locator.CSS "{a}-{b}" None) = ["a"; "b"] /\
  Locator.get_by (Locator.init Locator.CSS "{a}-{b}" None)
    (<["a" := PyStr "x"]> (<["b" := PyInt 7]> (<["c" := PyStr "z"]> ∅))) =
    Return ("css selector", "x-7") /\
  Locator.get_by (Locator.init Locator.CSS "{a}-{b}" None)
    (<["a" := PyStr "x"]> (<["b" := PyInt 7]> ∅)) =
  Locator.get_by (Locator.init Locator.CSS "{a}-{b}" None)
    (<["a" := PyStr "x"]> (<["b" := PyInt 7]> (<["c" := PyStr "z"]> ∅))).
Proof.
  split; [reflexivity|].
  assert (Hne : Locator.parameters (Locator.init Locator.CSS "{a}-{b}" None) <> [])
    by discriminate.
  assert (Hc : Template.complete
                 (<["a" := PyStr "x"]> (<["b" := PyInt 7]> (<["c" := PyStr "z"]> ∅)))
                 (Locator.parameters (Locator.init Locator.CSS "{a}-{b}" None))).
  { intros p Hp. change (In p ["a"; "b"]) in Hp.
    destruct Hp as [<-|[<-|[]]]; vm_compute; eauto. }
  destruct (get_by_with_extra_arguments _ _ Hne Hc) as [_ H].
  destruct (H [Template.Field "a"; Template.Lit "-"; Template.Field "b"]
              eq_refl eq_refl eq_refl) as [Hr Hsame].
  split; [exact Hr|].
  apply Hsame. intros p Hp. change (In p ["a"; "b"]) in Hp.
  destruct Hp as [<-|[<-|[]]]; reflexivity.
Defined.

(** C10 as stated fails on a template with a stray closing brace: the
    keywords [a] and [b] are a strict superset of the one extracted
    parameter of [{a}}], and [get_by] raises the [ValueError] of
    [format]. *)
Lemma get_by_raises_despite_superset :
  Locator.parameters (Locator.init Locator.XPATH "{a}}" None) = ["a"] /\
  (<["a" := PyStr "x"]> (<["b" := PyStr "y"]> ∅) : gmap string pyobj) !! "a"
    = Some (PyStr "x") /\
  (<["a" := PyStr "x"]> (<["b" := PyStr "y"]> ∅) : gmap string pyobj) !! "b"
    = Some (PyStr "y") /\
  Locator.get_by (Locator.init Locator.XPATH "{a}}" None)
    (<["a" := PyStr "x"]> (<["b" := PyStr "y"]> ∅)) =
  Raise (ValueError "Single '}' encountered in format string").
Proof. vm_compute. repeat split. Qed.

(** ** FluentFinder *)

Section FinderFacts.

Import FluentFinder.

Context {WebDriver Result : Type}.
Variable until : @wait_call WebDriver -> Result.

(** a timeout other than 0 and a true condition object are passed on *)
Lemma find_element_passes_overrides (self : FluentFinder.t)
    (locator_tuple : string * string) (timeout : Z) (cond : condition) :
  timeout <> 0 -> condition_truth cond = true ->
  snd (find_element until self locator_tuple (Some timeout) (Some cond)) =
    until {| wait_driver := webdriver self; wait_timeout := timeout;
             wait_condition := cond; wait_locator := locator_tuple |} /\
  snd (find_elements until self locator_tuple (Some timeout) (Some cond)) =
    until {| wait_driver := webdriver self; wait_timeout := timeout;
             wait_condition := cond; wait_locator := locator_tuple |}.
Proof.
  intros Ht Hc. unfold find_element, find_elements, timeout_or, condition_or,
    int_truth. simpl.
  destruct (Z.eqb_spec timeout 0); [contradiction|]. simpl.
  now rewrite Hc.
Qed.

(** where the call of the condition does not raise, the wait is the one of
    [find_element] and [find_elements] *)
Lemma find_in_goes_through (lib : conditions_are) (self : FluentFinder.t)
    (locator_tuple : string * string) (timeout : option Z)
    (cond : option condition) :
  (call_raises lib (callee_of cond default_single_condition) = false ->
   find_element_in lib until self locator_tuple timeout cond =
     (fst (find_element until self locator_tuple timeout cond),
      Waited (snd (find_element until self locator_tuple timeout cond)))) /\
  (call_raises lib (callee_of cond default_multi_condition) = false ->
   find_elements_in lib until self locator_tuple timeout cond =
     (fst (find_elements until self locator_tuple timeout cond),
      Waited (snd (find_elements until self locator_tuple timeout cond)))).
Proof.
  unfold find_element_in, find_elements_in.
  split; intros H; cbn -[call_raises callee_of]; now rewrite H.
Qed.

(** the call raises exactly when the conditions of the library are
    functions and no true condition is passed *)
Lemma call_raises_spec (lib : conditions_are) (cond : option condition)
    (default : condition) :
  call_raises lib (callee_of cond default) =
    match lib, cond with
    | Functions, None => true
    | Functions, Some c => negb (condition_truth c)
    | Classes, _ => false
    end.
Proof.
  destruct lib, cond as [c|]; simpl; try reflexivity;
    destruct (condition_truth c); reflexivity.
Qed.

End FinderFacts.

(** C8 does not hold with a driver library whose expected conditions are
    functions: called without a timeout and without a condition, both
    methods log the default timeout and the default condition of their
    cardinality, and then the call of the condition, a method bound to the
    finder, raises [TypeError] before any wait is made. With a library
    whose expected conditions are classes the wait is made with the
    default timeout of the finder, for [presence_of_element_located] in
    [find_element] and for [presence_of_all_elements_located] in
    [find_elements]. *)
Theorem find_without_overrides_by_library {WebDriver Result : Type}
    (until : @FluentFinder.wait_call WebDriver -> Result)
    (self : FluentFinder.t) (locator_tuple : string * string) :
  FluentFinder.find_element_in FluentFinder.Functions until self locator_tuple
    None None =
    ({| FluentFinder.log_method := "find_element";
        FluentFinder.log_locator := locator_tuple;
        FluentFinder.log_timeout := FluentFinder.default_timeout self;
        FluentFinder.log_condition := FluentFinder.presence_of_element_located |},
     FluentFinder.RaisedTypeError) /\
  FluentFinder.find_elements_in FluentFinder.Functions until self locator_tuple
    None None =
    ({| FluentFinder.log_method := "find_elements";
        FluentFinder.log_locator := locator_tuple;
        FluentFinder.log_timeout := FluentFinder.default_timeout self;
        FluentFinder.log_condition :=
          FluentFinder.presence_of_all_elements_located |},
     FluentFinder.RaisedTypeError) /\
  FluentFinder.find_element_in FluentFinder.Classes until self locator_tuple
    None None =
    ({| FluentFinder.log_method := "find_element";
        FluentFinder.log_locator := locator_tuple;
        FluentFinder.log_timeout := FluentFinder.default_timeout self;
        FluentFinder.log_condition := FluentFinder.presence_of_element_located |},
     FluentFinder.Waited
       (until {| FluentFinder.wait_driver := FluentFinder.webdriver self;
                 FluentFinder.wait_timeout := FluentFinder.default_timeout self;
                 FluentFinder.wait_condition :=
                   FluentFinder.presence_of_element_located;
                 FluentFinder.wait_locator := locator_tuple |})) /\
  FluentFinder.find_elements_in FluentFinder.Classes until self locator_tuple
    None None =
    ({| FluentFinder.log_method := "find_elements";
        FluentFinder.log_locator := locator_tuple;
        FluentFinder.log_timeout := FluentFinder.default_timeout self;
        FluentFinder.log_condition :=
          FluentFinder.presence_of_all_elements_located |},
     FluentFinder.Waited
       (until {| FluentFinder.wait_driver := FluentFinder.webdriver self;
                 FluentFinder.wait_timeout := FluentFinder.default_timeout self;
                 FluentFinder.wait_condition :=
                   FluentFinder.presence_of_all_elements_located;
                 FluentFinder.wait_locator := locator_tuple |})).
Proof. repeat split. Qed.

(** C2 does not hold for the timeout 0: it is supplied, it is false as a
    Python value, and both finders wait with the default timeout of the
    finder instead. *)
Theorem find_with_zero_timeout_uses_default {WebDriver Result : Type}
    (until : @FluentFinder.wait_call WebDriver -> Result)
    (self : FluentFinder.t) (locator_tuple : string * string)
    (cond : option FluentFinder.condition) :
  snd (FluentFinder.find_element until self locator_tuple (Some 0) cond) =
    until {| FluentFinder.wait_driver := FluentFinder.webdriver self;
             FluentFinder.wait_timeout := FluentFinder.default_timeout self;
             FluentFinder.wait_condition :=
               FluentFinder.condition_or cond
                 FluentFinder.default_single_condition;
             FluentFinder.wait_locator := locator_tuple |} /\
  snd (FluentFinder.find_elements until self locator_tuple (Some 0) cond) =
    until {| FluentFinder.wait_driver := FluentFinder.webdriver self;
             FluentFinder.wait_timeout := FluentFinder.default_timeout self;
             FluentFinder.wait_condition :=
               FluentFinder.condition_or cond
                 FluentFinder.default_multi_condition;
             FluentFinder.wait_locator := locator_tuple |}.
Proof. split; reflexivity. Qed.

(** * Further properties of the code *)

(** ** What [__find_param] and [get_parameters] return *)

Section ExtractorProperties.

Import Extracted.

Abbreviation onto_scan := (Spec.scan (fun cursor _ => S cursor) (fun c => c)).

Lemma first_index_first (c : ascii) (s : string) (i : nat) :
  first_index c s = Some i ->
  forall j, (j < i)%nat -> String.get j s <> Some c.
Proof.
  revert i; induction s as [|a s IH]; simpl; intros i H j Hj; [discriminate|].
  destruct (Ascii.eqb a c) eqn:E.
  - injection H as <-. lia.
  - destruct (first_index c s) as [k|] eqn:Ek; [|discriminate].
    injection H as <-. destruct j as [|j].
    + intros [= ->]. rewrite Ascii.eqb_refl in E. discriminate.
    + apply (IH k eq_refl). lia.
Qed.

Lemma next_index_first (c : ascii) (text : string) (pos i : nat) :
  Spec.next_index c text pos = Some i ->
  forall k, (pos <= k < i)%nat -> String.get k text <> Some c.
Proof.
  rewrite next_index_drop.
  destruct (Nat.ltb_spec (String.length text) pos); [discriminate|].
  destruct (first_index c (str_drop pos text)) as [j|] eqn:E; [|discriminate].
  simpl. intros [= <-] k Hk.
  pose proof (first_index_first _ _ _ E (k - pos)%nat) as Hf.
  rewrite get_drop in Hf.
  replace (pos + (k - pos))%nat with k in Hf by lia.
  apply Hf. lia.
Qed.

Lemma get_some_lt (n : nat) (s : string) (a : ascii) :
  String.get n s = Some a -> (n < String.length s)%nat.
Proof.
  revert n; induction s as [|b s IH]; intros [|n] H; simpl in *;
    try discriminate; [lia|].
  specialize (IH n H). lia.
Qed.

Lemma contains_get_inv (c : ascii) (s : string) :
  contains c s = true -> exists j, String.get j s = Some c.
Proof.
  induction s as [|a s IH]; simpl; [discriminate|].
  destruct (Ascii.eqb_spec a c) as [->|]; simpl.
  - exists O. reflexivity.
  - intros H. destruct (IH H) as [j Hj]. exists (S j). exact Hj.
Qed.

Lemma scan_step_matched (text : string) (cursor o c : nat) :
  Spec.next_index "{" text cursor = Some o ->
  Spec.next_index "}" text (S cursor) = Some c ->
  (c <? o)%nat = false ->
  (cursor <= o /\ o < c /\ c < String.length text)%nat /\
  matched text cursor (Spec.between text o c).
Proof.
  intros Eo Ec Hlt. apply Nat.ltb_ge in Hlt.
  pose proof (next_index_bounds _ _ _ _ Eo) as [Ho Go].
  pose proof (next_index_bounds _ _ _ _ Ec) as [Hc Gc].
  assert (o <> c) by (intros ->; congruence).
  split; [lia|]. exists o, c.
  split; [lia|]. split; [exact Go|]. split; [exact Gc|].
  split; [reflexivity|].
  intros k Hk. apply (next_index_first _ _ _ _ Ec). lia.
Qed.

Lemma onto_scan_matched (fuel : nat) (text : string) :
  forall (cursor : nat) (p : string),
    In p (onto_scan fuel text cursor) -> matched text cursor p.
Proof.
  induction fuel as [|fuel IH]; intros cursor p H; [contradiction|].
  simpl Spec.scan in H.
  destruct (Spec.next_index "{" text cursor) as [o|] eqn:Eo; [|contradiction].
  destruct (Spec.next_index "}" text (S cursor)) as [c|] eqn:Ec;
    [|contradiction].
  destruct (c <? o)%nat eqn:Hlt; [contradiction|].
  destruct (scan_step_matched _ _ _ _ Eo Ec Hlt) as [Hb Hm].
  destruct H as [<-|H]; [exact Hm|].
  destruct (IH c p H) as (o' & c' & Hb' & Go & Gc & E & Hno).
  exists o', c'. split; [lia|]. auto.
Qed.

Lemma matched_no_close (text : string) (cursor : nat) (p : string) :
  matched text cursor p -> contains "}" p = false.
Proof.
  intros (o & c & Hb & _ & _ & -> & Hno).
  destruct (contains "}" (Spec.between text o c)) eqn:E; [|reflexivity].
  exfalso. apply contains_get_inv in E as [j Hj].
  unfold Spec.between in Hj.
  destruct (Nat.lt_ge_cases j (c - S o)) as [Hlt|Hge].
  - rewrite substring_correct1 in Hj by assumption.
    apply (Hno (j + S o)%nat); [lia | exact Hj].
  - rewrite substring_correct2 in Hj by assumption. discriminate.
Qed.

Lemma str_take_drop (n : nat) (s : string) :
  s = str_take n s ++ str_drop n s.
Proof.
  revert s; induction n as [|n IH]; intros [|a s]; try reflexivity.
  simpl. rewrite str_app_cons. f_equal. apply IH.
Qed.

Lemma str_drop_get (n : nat) (s : string) (a : ascii) :
  String.get n s = Some a -> str_drop n s = String a (str_drop (S n) s).
Proof.
  revert s; induction n as [|n IH]; intros [|b s] H; simpl in H;
    try discriminate.
  - injection H as ->. now destruct s.
  - apply (IH s H).
Qed.

Lemma str_drop_drop (n m : nat) (s : string) :
  str_drop m (str_drop n s) = str_drop (n + m) s.
Proof.
  revert s; induction n as [|n IH]; intros s; [reflexivity|].
  destruct s as [|a s]; simpl; [apply str_drop_empty | apply IH].
Qed.

Lemma matched_infix (text : string) (cursor : nat) (p : string) :
  matched text cursor p ->
  exists pre post, text = pre ++ Template.placeholder p ++ post.
Proof.
  intros (o & c & Hb & Go & Gc & -> & _).
  exists (str_take o text), (str_drop (S c) text).
  rewrite placeholder_app. unfold Spec.between.
  rewrite substring_take_drop.
  rewrite (str_take_drop o text) at 1. f_equal.
  rewrite (str_drop_get _ _ _ Go). f_equal.
  rewrite (str_take_drop (c - S o) (str_drop (S o) text)) at 1. f_equal.
  rewrite str_drop_drop.
  replace (S o + (c - S o))%nat with c by lia.
  apply (str_drop_get _ _ _ Gc).
Qed.

Lemma str_take_length (n : nat) (s : string) :
  String.length (str_take n s) = Nat.min n (String.length s).
Proof.
  revert s; induction n as [|n IH]; intros [|a s]; simpl; try reflexivity.
  now rewrite IH.
Qed.

Lemma between_length (text : string) (o c : nat) :
  (c <= String.length text)%nat ->
  String.length (Spec.between text o c) = (c - S o)%nat.
Proof.
  intros H. unfold Spec.between.
  rewrite substring_take_drop, str_take_length, str_drop_length. lia.
Qed.

Lemma onto_scan_footprint (fuel : nat) (text : string) :
  forall cursor : nat,
    String.get cursor text = Some "}"%char ->
    (footprint (onto_scan fuel text cursor) + S cursor
     <= String.length text)%nat.
Proof.
  induction fuel as [|fuel IH]; intros cursor Hg.
  - apply get_some_lt in Hg. simpl. lia.
  - pose proof (get_some_lt _ _ _ Hg) as Hlen. simpl Spec.scan.
    rewrite (next_index_skip "{" "}" text cursor Hg) by discriminate.
    destruct (Spec.next_index "{" text (S cursor)) as [o|] eqn:Eo;
      [|simpl; lia].
    destruct (Spec.next_index "}" text (S cursor)) as [c|] eqn:Ec;
      [|simpl; lia].
    destruct (c <? o)%nat eqn:Hlt; [simpl; lia|].
    apply Nat.ltb_ge in Hlt.
    pose proof (next_index_bounds _ _ _ _ Eo) as [Ho Go].
    pose proof (next_index_bounds _ _ _ _ Ec) as [Hc Gc].
    assert (o <> c) by (intros ->; congruence).
    specialize (IH c Gc). unfold footprint in *. simpl.
    rewrite between_length by lia. lia.
Qed.

Lemma extract_footprint (text : string) :
  (footprint (Spec.extract_onto_brace text) <= String.length text)%nat.
Proof.
  unfold Spec.extract_onto_brace. simpl Spec.scan.
  destruct (Spec.next_index "{" text 0) as [o|] eqn:Eo; [|unfold footprint; simpl; lia].
  destruct (Spec.next_index "}" text 1) as [c|] eqn:Ec; [|unfold footprint; simpl; lia].
  destruct (c <? o)%nat eqn:Hlt; [unfold footprint; simpl; lia|].
  apply Nat.ltb_ge in Hlt.
  pose proof (next_index_bounds _ _ _ _ Eo) as [Ho Go].
  pose proof (next_index_bounds _ _ _ _ Ec) as [Hc Gc].
  assert (o <> c) by (intros ->; congruence).
  pose proof (onto_scan_footprint (String.length text) text c Gc) as IH.
  unfold footprint in *. simpl.
  rewrite between_length by lia. lia.
Qed.

Lemma footprint_count (params : list string) :
  (2 * List.length params <= footprint params)%nat.
Proof.
  unfold footprint. induction params as [|p params IH]; simpl in *; lia.
Qed.

End ExtractorProperties.

(** X1. Started at a cursor that is not negative, [__find_param] either
    returns no parameter together with the index -1, or it returns a
    parameter together with the index of a closing brace that lies strictly
    after the cursor and inside the text; the parameter is then the text
    between an opening brace at or after the cursor and that closing brace,
    and holds no closing brace. *)
Theorem find_param_result (text : string) (cursor : nat) :
  match find_param text (Z.of_nat cursor) with
  | (Some p, last_index) =>
      exists o c,
        last_index = Z.of_nat c /\
        (cursor <= o /\ o < c /\ c < String.length text)%nat /\
        String.get o text = Some "{"%char /\
        String.get c text = Some "}"%char /\
        p = Spec.between text o c /\
        contains "}" p = false
  | (None, last_index) => last_index = -1
  end.
Proof.
  rewrite find_param_positions.
  destruct (Spec.next_index "{" text cursor) as [o|] eqn:Eo; [|reflexivity].
  destruct (Spec.next_index "}" text (S cursor)) as [c|] eqn:Ec; [|reflexivity].
  destruct (c <? o)%nat eqn:Hlt; [reflexivity|].
  destruct (scan_step_matched _ _ _ _ Eo Ec Hlt) as [Hb Hm].
  pose proof (next_index_bounds _ _ _ _ Eo) as [_ Go].
  pose proof (next_index_bounds _ _ _ _ Ec) as [_ Gc].
  exists o, c. repeat (split; [first [reflexivity | lia | assumption]|]).
  exact (matched_no_close _ _ _ Hm).
Qed.

(** X2. No name that [get_parameters] returns holds a closing brace. *)
Theorem get_parameters_names_without_close (text p : string) :
  In p (get_parameters text) -> contains "}" p = false.
Proof.
  rewrite get_parameters_scan. intros H.
  exact (matched_no_close _ _ _ (onto_scan_matched _ _ _ _ H)).
Qed.

Lemma get_parameters_names_without_close_witness :
  In "a{b" (get_parameters "{a{b}{c}") /\ contains "}" "a{b" = false.
Proof.
  assert (H : In "a{b" (get_parameters "{a{b}{c}")) by (vm_compute; tauto).
  split; [exact H|].
  exact (get_parameters_names_without_close "{a{b}{c}" "a{b" H).
Defined.

(** X3. Every name that [get_parameters] returns stands in the text between
    an opening and a closing brace: the text is some prefix, the
    placeholder of the name, and some suffix. *)
Theorem get_parameters_names_occur_in_braces (text p : string) :
  In p (get_parameters text) ->
  exists pre post, text = pre ++ Template.placeholder p ++ post.
Proof.
  rewrite get_parameters_scan. intros H.
  exact (matched_infix _ _ _ (onto_scan_matched _ _ _ _ H)).
Qed.

Lemma get_parameters_names_occur_in_braces_witness :
  In "b" (get_parameters "//a[{b}]/c") /\
  exists pre post, "//a[{b}]/c" = pre ++ Template.placeholder "b" ++ post.
Proof.
  assert (H : In "b" (get_parameters "//a[{b}]/c")) by (vm_compute; tauto).
  split; [exact H|].
  exact (get_parameters_names_occur_in_braces "//a[{b}]/c" "b" H).
Defined.

(** X4. The placeholders that [get_parameters] reads do not overlap: the
    lengths of the returned names, plus two for the braces of each, add up
    to at most the length of the text; so there are at most half as many
    names as characters. *)
Theorem get_parameters_footprint (text : string) :
  (Extracted.footprint (get_parameters text) <= String.length text)%nat /\
  (2 * List.length (get_parameters text) <= String.length text)%nat.
Proof.
  rewrite get_parameters_scan.
  pose proof (extract_footprint text).
  pose proof (footprint_count (Spec.extract_onto_brace text)).
  split; lia.
Qed.

(** ** Extraction and concatenation *)

Section ExtractorComposition.

Import Template.

Abbreviation onto_scan := (Spec.scan (fun cursor _ => S cursor) (fun c => c)).

Lemma next_index_cons (c a : ascii) (text : string) (pos : nat) :
  Spec.next_index c (String a text) (S pos) =
  option_map S (Spec.next_index c text pos).
Proof. reflexivity. Qed.

Lemma next_index_head (c a : ascii) (text : string) :
  Ascii.eqb a c = false ->
  Spec.next_index c (String a text) 0 =
  option_map S (Spec.next_index c text 0).
Proof.
  intros H.
  change (Spec.next_index c (String a text) 0)
    with (if Ascii.eqb a c then Some O
          else option_map S (Spec.next_index c text 0)).
  now rewrite H.
Qed.

Lemma between_cons (a : ascii) (text : string) (o c : nat) :
  Spec.between (String a text) (S o) (S c) = Spec.between text o c.
Proof. reflexivity. Qed.

Lemma scan_cons_step (fuel : nat) (a : ascii) (text : string)
    (open close : option nat) (tail : nat -> list string) :
  match option_map S open with
  | None => []
  | Some o =>
      match option_map S close with
      | None => []
      | Some c =>
          if (c <? o)%nat then []
          else Spec.between (String a text) o c :: tail c
      end
  end =
  match open with
  | None => []
  | Some o =>
      match close with
      | None => []
      | Some c =>
          if (c <? o)%nat then []
          else Spec.between text o c :: tail (S c)
      end
  end.
Proof.
  destruct open as [o|], close as [c|]; reflexivity.
Qed.

Lemma onto_scan_unfold (fuel : nat) (text : string) (cursor : nat) :
  onto_scan (S fuel) text cursor =
  match Spec.next_index "{" text cursor with
  | None => []
  | Some o =>
      match Spec.next_index "}" text (S cursor) with
      | None => []
      | Some c =>
          if (c <? o)%nat then []
          else Spec.between text o c :: onto_scan fuel text c
      end
  end.
Proof. reflexivity. Qed.

(** one character in front of the text and of the cursor changes nothing *)
Lemma onto_scan_cons (fuel : nat) (a : ascii) (text : string) :
  forall cursor : nat,
    onto_scan fuel (String a text) (S cursor) = onto_scan fuel text cursor.
Proof.
  induction fuel as [|fuel IH]; intros cursor; [reflexivity|].
  rewrite !onto_scan_unfold, !next_index_cons.
  rewrite (scan_cons_step fuel a text _ _
             (fun c => onto_scan fuel (String a text) c)).
  destruct (Spec.next_index "{" text cursor) as [o|]; [|reflexivity].
  destruct (Spec.next_index "}" text (S cursor)) as [c|]; [|reflexivity].
  destruct (c <? o)%nat; [reflexivity|]. now rewrite IH.
Qed.

Lemma onto_scan_shift (fuel : nat) (done w : string) (cursor : nat) :
  onto_scan fuel (done ++ w) (String.length done + cursor) =
  onto_scan fuel w cursor.
Proof.
  induction done as [|a done IH]; [reflexivity|].
  rewrite str_app_cons. simpl String.length.
  change (S (String.length done) + cursor)%nat
    with (S (String.length done + cursor)).
  now rewrite onto_scan_cons.
Qed.

Lemma onto_scan_fuel (text : string) (f1 : nat) :
  forall (f2 cursor : nat),
    (String.length text <= cursor + f1)%nat ->
    (String.length text <= cursor + f2)%nat ->
    onto_scan f1 text cursor = onto_scan f2 text cursor.
Proof.
  induction f1 as [|f1 IH]; intros f2 cursor H1 H2.
  - now rewrite !onto_scan_past_end by lia.
  - destruct f2 as [|f2]; [now rewrite !onto_scan_past_end by lia|].
    rewrite !onto_scan_unfold.
    destruct (Spec.next_index "{" text cursor) as [o|]; [|reflexivity].
    destruct (Spec.next_index "}" text (S cursor)) as [c|] eqn:Ec;
      [|reflexivity].
    destruct (c <? o)%nat; [reflexivity|].
    apply next_index_bounds in Ec as [Hc _].
    now rewrite (IH f2 c) by lia.
Qed.

(** a first character that is not an opening brace is passed over, whether
    it is a closing brace or not *)
Lemma onto_scan_head (fuel : nat) (a : ascii) (t : string) :
  Ascii.eqb a "{" = false ->
  onto_scan (S fuel) (String a t) 0 =
  match Spec.next_index "{" t 0 with
  | None => []
  | Some o =>
      match Spec.next_index "}" t 0 with
      | None => []
      | Some c =>
          if (c <? o)%nat then []
          else Spec.between t o c :: onto_scan fuel t c
      end
  end.
Proof.
  intros Ha. rewrite onto_scan_unfold, next_index_head by assumption.
  rewrite next_index_cons.
  rewrite (scan_cons_step fuel a t _ _
             (fun c => onto_scan fuel (String a t) c)).
  destruct (Spec.next_index "{" t 0) as [o|]; [|reflexivity].
  destruct (Spec.next_index "}" t 0) as [c|]; [|reflexivity].
  destruct (c <? o)%nat; [reflexivity|]. now rewrite onto_scan_cons.
Qed.

Lemma onto_scan_skip_head (fuel : nat) (a : ascii) (t : string) :
  Ascii.eqb a "{" = false ->
  String.get 0 t <> Some "}"%char ->
  onto_scan fuel (String a t) 0 = onto_scan fuel t 0.
Proof.
  intros Ha Ht. destruct fuel as [|fuel]; [reflexivity|].
  rewrite onto_scan_head by assumption. rewrite onto_scan_unfold.
  assert (E : Spec.next_index "}" t 1 = Spec.next_index "}" t 0).
  { destruct t as [|b t]; [reflexivity|].
    symmetry. apply (next_index_skip "}" b); [reflexivity|].
    intros ->. now apply Ht. }
  now rewrite E.
Qed.

Lemma onto_scan_skip_literal (fuel : nat) (s rest : string) :
  brace_free s = true ->
  String.get 0 rest <> Some "}"%char ->
  onto_scan fuel (s ++ rest) 0 = onto_scan fuel rest 0.
Proof.
  intros H Hr. apply brace_free_inv in H as [Ho Hc].
  induction s as [|a s IH]; [reflexivity|].
  simpl in Ho, Hc. apply orb_false_elim in Ho as [Ho1 Ho2].
  apply orb_false_elim in Hc as [Hc1 Hc2].
  rewrite str_app_cons, onto_scan_skip_head; auto.
  destruct s as [|b s]; [exact Hr|].
  rewrite str_app_cons. simpl. simpl in Hc2.
  apply orb_false_elim in Hc2 as [Hb _].
  intros [= ->]. discriminate.
Qed.

Lemma render_head (segs : list segment) (t2 : string) :
  forallb plain_segment segs = true ->
  String.get 0 t2 <> Some "}"%char ->
  String.get 0 (render segs ++ t2) <> Some "}"%char.
Proof.
  induction segs as [|[s|name] segs IH]; intros Hs Ht; simpl in Hs;
    [exact Ht| |].
  - apply andb_true_iff in Hs as [Hs Hsegs].
    change (render (Lit s :: segs)) with (s ++ render segs).
    destruct s as [|a s]; [now apply IH|].
    apply brace_free_inv in Hs as [_ Hc]. simpl in Hc.
    apply orb_false_elim in Hc as [Ha _].
    rewrite !str_app_cons. simpl. intros [= ->]. discriminate.
  - simpl. discriminate.
Qed.

Lemma scan_template_tail (segs : list segment) :
  forall (fuel : nat) (t2 : string),
    forallb plain_segment segs = true ->
    String.get 0 t2 <> Some "}"%char ->
    (String.length (render segs ++ t2) <= fuel)%nat ->
    onto_scan fuel (render segs ++ t2) 0 =
    (names segs ++ Spec.extract_onto_brace t2)%list.
Proof.
  induction segs as [|[s|name] segs IH]; intros fuel t2 Hs Ht Hf;
    simpl in Hs.
  - change (render [] ++ t2) with t2 in *. simpl names.
    unfold Spec.extract_onto_brace. apply onto_scan_fuel; lia.
  - apply andb_true_iff in Hs as [Hs Hsegs].
    change (render (Lit s :: segs)) with (s ++ render segs) in *.
    rewrite str_app_assoc in *.
    rewrite onto_scan_skip_literal by auto using render_head.
    simpl names. apply IH; auto.
    rewrite str_app_length in Hf. lia.
  - apply andb_true_iff in Hs as [Hn Hsegs].
    change (render (Field name :: segs)) with (placeholder name ++ render segs)
      in *.
    rewrite str_app_assoc in *.
    rewrite placeholder_app in Hf. simpl in Hf.
    rewrite str_app_length in Hf. simpl in Hf.
    destruct fuel as [|fuel]; [lia|].
    pose proof (scan_field fuel EmptyString EmptyString name
                  (render segs ++ t2) eq_refl eq_refl Hn) as E.
    rewrite !str_app_nil in E. simpl String.length in E.
    rewrite E. simpl names. rewrite <- List.app_comm_cons. f_equal.
    rewrite placeholder_app.
    replace (String "{" (name ++ String "}" (render segs ++ t2)))
      with (String "{" name ++ String "}" (render segs ++ t2))
      by (now rewrite str_app_cons).
    replace (0 + 0 + S (String.length name))%nat
      with (String.length (String "{" name) + 0)%nat by (simpl; lia).
    rewrite onto_scan_shift.
    rewrite onto_scan_skip_head by auto using render_head.
    apply IH; auto. lia.
Qed.

Lemma get_parameters_template_tail (segs : list segment) (t2 : string) :
  forallb plain_segment segs = true ->
  String.get 0 t2 <> Some "}"%char ->
  get_parameters (render segs ++ t2) =
  (names segs ++ get_parameters t2)%list.
Proof.
  intros Hs Ht. rewrite !get_parameters_scan.
  unfold Spec.extract_onto_brace at 1.
  apply scan_template_tail; auto.
Qed.

Lemma get_parameters_first_character (a b : ascii) (t : string) :
  Ascii.eqb a "{" = false -> Ascii.eqb b "{" = false ->
  get_parameters (String a t) = get_parameters (String b t).
Proof.
  intros Ha Hb. rewrite !get_parameters_scan.
  unfold Spec.extract_onto_brace. simpl String.length.
  now rewrite !onto_scan_head.
Qed.

End ExtractorComposition.

(** X5. Extraction goes through a concatenation: for literal text and
    placeholders followed by any text that does not start with a closing
    brace, [get_parameters] returns the names of the placeholders followed
    by what it returns for that text alone. *)
Theorem get_parameters_of_concatenation
    (segs : list Template.segment) (t2 : string) :
  forallb Template.plain_segment segs = true ->
  String.get 0 t2 <> Some "}"%char ->
  get_parameters (Template.render segs ++ t2) =
  (Template.names segs ++ get_parameters t2)%list.
Proof. apply get_parameters_template_tail. Qed.

Lemma get_parameters_of_concatenation_witness :
  get_parameters ("//a[{x}]" ++ "/b[{y}]{") = ["x"; "y"] /\
  get_parameters "/b[{y}]{" = ["y"].
Proof.
  split; [|reflexivity].
  refine (get_parameters_of_concatenation
            [Template.Lit "//a["; Template.Field "x"; Template.Lit "]"]
            "/b[{y}]{" eq_refl _).
  discriminate.
Defined.

(** X6. A closing brace that is the first character of the text is never
    read as a brace: [get_parameters] returns the same names when it is
    replaced by any character other than an opening brace. *)
Theorem get_parameters_ignores_leading_close (a : ascii) (t : string) :
  a <> "{"%char ->
  get_parameters (String "}" t) = get_parameters (String a t).
Proof.
  intros Ha. apply get_parameters_first_character; [reflexivity|].
  now apply Ascii.eqb_neq.
Qed.

Lemma get_parameters_ignores_leading_close_witness :
  get_parameters "}{a}" = get_parameters "x{a}" /\
  get_parameters "x{a}" = ["a"].
Proof.
  split; [|reflexivity].
  refine (get_parameters_ignores_leading_close "x" "{a}" _). discriminate.
Defined.

(** ** Placeholders that validation accepts and [format] does not resolve *)

Section UnresolvedPlaceholders.

Import Locator Template.

Variable kwargs : gmap string pyobj.

(** a replacement field whose name has only plain characters is rendered
    when its closing brace is read *)
Lemma format_scan_field (name rest : string) :
  name_chars name = true ->
  format_scan kwargs InLiteral (placeholder name ++ rest) =
  bind (render_field kwargs name None EmptyString) (fun v =>
  bind (format_scan kwargs InLiteral rest) (fun r => Return (v ++ r))).
Proof.
  intros H. rewrite placeholder_app.
  destruct name as [|c name].
  - rewrite str_app_nil, format_scan_open by reflexivity.
    exact (format_scan_name kwargs EmptyString EmptyString rest eq_refl).
  - pose proof H as Hc. simpl in Hc. apply andb_true_iff in Hc as [Hc _].
    unfold name_char in Hc. rewrite negb_true_iff in Hc.
    repeat (apply orb_false_elim in Hc as [Hc ?]).
    rewrite str_app_cons, format_scan_open by assumption.
    rewrite <- str_app_cons.
    exact (format_scan_name kwargs (String c name) EmptyString rest H).
Qed.

Lemma name_chars_app (s1 s2 : string) :
  name_chars (s1 ++ s2) = name_chars s1 && name_chars s2.
Proof.
  induction s1 as [|a s1 IH]; [reflexivity|].
  rewrite str_app_cons. simpl. now rewrite IH, andb_assoc.
Qed.

Lemma name_chars_brace_free (s : string) :
  name_chars s = true -> brace_free s = true.
Proof.
  unfold brace_free. induction s as [|a s IH]; [reflexivity|].
  simpl. intros H. apply andb_true_iff in H as [Ha H].
  specialize (IH H). apply andb_true_iff in IH as [I1 I2].
  rewrite negb_true_iff in I1, I2.
  unfold name_char in Ha. rewrite negb_true_iff in Ha.
  repeat (apply orb_false_elim in Ha as [Ha ?]).
  now rewrite Ha, I1, I2, H2.
Qed.

Lemma is_digit_differs (a x : ascii) :
  is_digit a = true -> is_digit x = false -> Ascii.eqb a x = false.
Proof.
  intros Ha Hx. destruct (Ascii.eqb_spec a x) as [->|]; congruence.
Qed.

Lemma digits_contain_no (x : ascii) (s : string) :
  is_digit x = false -> all_digits s = true -> contains x s = false.
Proof.
  intros Hx. induction s as [|a s IH]; [reflexivity|].
  simpl. intros H. apply andb_true_iff in H as [Ha H].
  now rewrite (is_digit_differs a x), IH.
Qed.

Lemma digits_name_chars (s : string) :
  all_digits s = true -> name_chars s = true.
Proof.
  intros H.
  apply contains_name_chars; apply digits_contain_no; auto.
Qed.

Lemma first_parameter (lit name more : string) :
  brace_free lit = true -> brace_free name = true ->
  exists rest, get_parameters (lit ++ placeholder name ++ more) = name :: rest.
Proof.
  intros Hl Hn. apply brace_free_inv in Hl as [Ho Hc].
  rewrite get_parameters_scan. unfold Spec.extract_onto_brace.
  pose proof (scan_field (String.length (lit ++ placeholder name ++ more))
                EmptyString lit name more Ho (contains_drop _ 1 _ Hc) Hn) as E.
  rewrite !str_app_nil in E. simpl String.length in E at 2.
  rewrite E. eauto.
Qed.

Lemma split_first_dotted (first attr : string) :
  contains "." first = false -> contains "[" first = false ->
  split_first (first ++ String "." attr) = (first, String "." attr).
Proof.
  induction first as [|c first IH]; intros H1 H2; [reflexivity|].
  simpl in H1, H2.
  apply orb_false_elim in H1 as [E1 H1], H2 as [E2 H2].
  rewrite str_app_cons. simpl. now rewrite E1, E2, IH.
Qed.

Lemma get_by_first_field (u : Using) (lit name more : string) :
  brace_free lit = true -> name_chars name = true ->
  complete kwargs (parameters (init u (lit ++ placeholder name ++ more) None)) ->
  get_by (init u (lit ++ placeholder name ++ more) None) kwargs =
  bind (bind (render_field kwargs name None EmptyString) (fun v =>
        bind (format_scan kwargs InLiteral more) (fun r =>
        Return (lit ++ v ++ r))))
       (fun v => Return (Using_value u, v)).
Proof.
  intros Hl Hn Hc.
  destruct (first_parameter lit name more Hl (name_chars_brace_free _ Hn))
    as [rest E].
  rewrite get_by_complete; [| unfold parameters; simpl; rewrite E; discriminate
                            | assumption].
  simpl value. unfold format.
  rewrite format_scan_literal, format_scan_field by assumption.
  destruct (render_field kwargs name None EmptyString); try reflexivity.
  simpl. now destruct (format_scan kwargs InLiteral more).
Qed.

End UnresolvedPlaceholders.

(** X7. A placeholder whose name is empty or a number cannot be resolved:
    when it is the first placeholder of the template, the literal text
    before it has no brace, and every extracted name is a keyword, [get_by]
    passes validation and then raises the error of [format], which reads
    the name as the index of a positional argument: [IndexError] for that
    index, or, for a number above [2^63 - 1], the largest index of a 64-bit
    build, [ValueError] for too many decimal digits. *)
Theorem get_by_numbered_placeholder (u : Locator.Using)
    (lit n more : string) (kwargs : gmap string pyobj) :
  Template.brace_free lit = true ->
  all_digits n = true ->
  Template.complete kwargs
    (Locator.parameters
       (Locator.init u (lit ++ Template.placeholder n ++ more) None)) ->
  Locator.get_by (Locator.init u (lit ++ Template.placeholder n ++ more) None)
    kwargs =
  Raise (if decimal_value 0 n >? ssize_t_max
         then ValueError "Too many decimal digits in format string"
         else IndexError (decimal_value 0 n)).
Proof.
  intros Hl Hd Hc.
  rewrite get_by_first_field by auto using digits_name_chars.
  unfold render_field, get_field_object.
  rewrite split_first_plain by (apply digits_contain_no; auto).
  destruct n as [|c n]; [reflexivity|].
  simpl is_empty. cbv iota. rewrite Hd.
  destruct (decimal_value 0 (String c n) >? ssize_t_max); reflexivity.
Qed.

Lemma get_by_numbered_placeholder_witness :
  Locator.get_by (Locator.init Locator.XPATH "//li[{1}]" None)
    (<["1" := PyStr "x"]> ∅) = Raise (IndexError 1) /\
  Locator.get_by
    (Locator.init Locator.XPATH "//li[{9223372036854775808}]" None)
    (<["9223372036854775808" := PyStr "x"]> ∅) =
    Raise (ValueError "Too many decimal digits in format string").
Proof.
  split.
  - refine (get_by_numbered_placeholder Locator.XPATH "//li[" "1" "]"
              (<["1" := PyStr "x"]> ∅) eq_refl eq_refl _).
    intros p Hp. change (In p ["1"]) in Hp.
    destruct Hp as [<-|[]]. vm_compute. eauto.
  - refine (get_by_numbered_placeholder Locator.XPATH "//li["
              "9223372036854775808" "]"
              (<["9223372036854775808" := PyStr "x"]> ∅) eq_refl eq_refl _).
    intros p Hp. change (In p ["9223372036854775808"]) in Hp.
    destruct Hp as [<-|[]]. vm_compute. eauto.
Defined.

(** X8. A placeholder with a dot in its name is validated under its whole
    name but looked up by [format] under the part before the first dot.
    Let it be the first placeholder of the template, after literal text
    without braces; let the part before the dot be a name that [format]
    looks up as a keyword (not empty, not a number, without brace, dot,
    square bracket, exclamation mark or colon) and the part after the dot
    be without brace, opening square bracket, exclamation mark and colon.
    When every extracted name is a keyword and the part before the dot is
    not, [get_by] raises the [KeyError] of that part. *)
Theorem get_by_dotted_placeholder (u : Locator.Using)
    (lit first attr more : string) (kwargs : gmap string pyobj) :
  Template.brace_free lit = true ->
  Template.simple_name first = true ->
  Template.name_chars attr = true ->
  Template.complete kwargs
    (Locator.parameters
       (Locator.init u
          (lit ++ Template.placeholder (first ++ String "." attr) ++ more)
          None)) ->
  kwargs !! first = None ->
  Locator.get_by
    (Locator.init u
       (lit ++ Template.placeholder (first ++ String "." attr) ++ more) None)
    kwargs = Raise (KeyError first).
Proof.
  intros Hl Hf Ha Hc Hnone.
  pose proof (simple_name_inv _ Hf) as (He & Hd & _ & Hn & Hs).
  assert (Hdot : contains "." first = false /\ contains "[" first = false).
  { unfold Template.simple_name in Hf.
    apply andb_true_iff in Hf as [Hf _], Hf as [Hf _], Hf as [Hf H2],
      Hf as [_ H1].
    now rewrite negb_true_iff in H1, H2. }
  destruct Hdot as [H1 H2].
  rewrite get_by_first_field; auto.
  - unfold render_field, get_field_object.
    now rewrite split_first_dotted, He, Hd, Hnone.
  - rewrite name_chars_app, Hn. simpl. exact Ha.
Qed.

Lemma get_by_dotted_placeholder_witness :
  Locator.parameters (Locator.init Locator.XPATH "//a[@id='{user.name}']" None)
    = ["user.name"] /\
  Locator.get_by (Locator.init Locator.XPATH "//a[@id='{user.name}']" None)
    (<["user.name" := PyStr "x"]> ∅) = Raise (KeyError "user").
Proof.
  split; [reflexivity|].
  refine (get_by_dotted_placeholder Locator.XPATH "//a[@id='" "user" "name" "']"
            (<["user.name" := PyStr "x"]> ∅) eq_refl eq_refl eq_refl _ eq_refl).
  intros p Hp. change (In p ["user.name"]) in Hp.
  destruct Hp as [<-|[]]. vm_compute. eauto.
Defined.

(** X9. With an extractor of its own, a locator is validated against the
    names of the extractor and resolved from its value: when the extractor
    yields at least one name, every one of them is a keyword, and the value
    is literal text and simple placeholders that all have a keyword,
    [get_by] returns the value with its placeholders filled in. *)
Theorem get_by_with_own_extractor (u : Locator.Using)
    (segs : list Template.segment) (pe : ParameterExtractor.t)
    (kwargs : gmap string pyobj) :
  forallb Template.simple_segment segs = true ->
  get_parameters pe <> [] ->
  Template.complete kwargs (get_parameters pe) ->
  Template.complete kwargs (Template.names segs) ->
  Locator.get_by (Locator.init u (Template.render segs) (Some pe)) kwargs =
  Return (Locator.Using_value u, Template.fill kwargs segs).
Proof.
  intros Hs Hne Hpe Hc.
  rewrite get_by_complete by assumption.
  simpl Locator.value. now rewrite format_template.
Qed.

Lemma get_by_with_own_extractor_witness :
  Locator.parameters (Locator.init Locator.XPATH "//a[{x}]" (Some "{x}{y}"))
    = ["x"; "y"] /\
  Locator.get_by (Locator.init Locator.XPATH "//a[{x}]" (Some "{x}{y}"))
    (<["x" := PyInt 1]> (<["y" := PyInt 2]> ∅)) = Return ("xpath", "//a[1]") /\
  Locator.get_by (Locator.init Locator.XPATH "//a[{x}]" (Some "{x}{y}"))
    (<["x" := PyInt 1]> ∅) =
    Raise (ValueError "get_by method is missing keyword argument: y").
Proof.
  split; [reflexivity|]. split; [|reflexivity].
  refine (get_by_with_own_extractor Locator.XPATH
            [Template.Lit "//a["; Template.Field "x"; Template.Lit "]"]
            "{x}{y}" (<["x" := PyInt 1]> (<["y" := PyInt 2]> ∅))
            eq_refl _ _ _).
  - discriminate.
  - intros p Hp. change (In p ["x"; "y"]) in Hp.
    destruct Hp as [<-|[<-|[]]]; vm_compute; eauto.
  - intros p [<-|[]]. vm_compute. eauto.
Defined.

(** ** The finders: overrides, the two methods, the shared logger *)

(** X10. A timeout other than 0 and a condition object that is true are
    passed to the wait as they are, and logged as they are, by
    [find_element] and by [find_elements]; the default timeout and the
    default conditions play no part. *)
Theorem find_passes_supplied_overrides {WebDriver Result : Type}
    (until : @FluentFinder.wait_call WebDriver -> Result)
    (self : FluentFinder.t) (locator_tuple : string * string)
    (timeout : Z) (cond : FluentFinder.condition) :
  timeout <> 0 ->
  FluentFinder.condition_truth cond = true ->
  FluentFinder.find_element until self locator_tuple (Some timeout) (Some cond) =
    ({| FluentFinder.log_method := "find_element";
        FluentFinder.log_locator := locator_tuple;
        FluentFinder.log_timeout := timeout;
        FluentFinder.log_condition := cond |},
     until {| FluentFinder.wait_driver := FluentFinder.webdriver self;
              FluentFinder.wait_timeout := timeout;
              FluentFinder.wait_condition := cond;
              FluentFinder.wait_locator := locator_tuple |}) /\
  FluentFinder.find_elements until self locator_tuple (Some timeout) (Some cond) =
    ({| FluentFinder.log_method := "find_elements";
        FluentFinder.log_locator := locator_tuple;
        FluentFinder.log_timeout := timeout;
        FluentFinder.log_condition := cond |},
     until {| FluentFinder.wait_driver := FluentFinder.webdriver self;
              FluentFinder.wait_timeout := timeout;
              FluentFinder.wait_condition := cond;
              FluentFinder.wait_locator := locator_tuple |}).
Proof.
  intros Ht Hc.
  unfold FluentFinder.find_element, FluentFinder.find_elements,
    FluentFinder.timeout_or, FluentFinder.condition_or, FluentFinder.int_truth.
  destruct (Z.eqb_spec timeout 0); [contradiction|]. simpl.
  now rewrite Hc.
Qed.

Lemma find_passes_supplied_overrides_witness :
  snd (FluentFinder.find_element (fun call => call)
         {| FluentFinder.webdriver := "session";
            FluentFinder.default_timeout := 5 |}
         ("id", "x") (Some (-3))
         (Some (FluentFinder.Callable "visibility_of_element_located" true))) =
  {| FluentFinder.wait_driver := "session";
     FluentFinder.wait_timeout := -3;
     FluentFinder.wait_condition :=
       FluentFinder.Callable "visibility_of_element_located" true;
     FluentFinder.wait_locator := ("id", "x") |}.
Proof.
  assert (Ht : -3 <> 0) by discriminate.
  exact (f_equal snd
           (proj1 (find_passes_supplied_overrides (fun call => call)
                     {| FluentFinder.webdriver := "session";
                        FluentFinder.default_timeout := 5 |}
                     ("id", "x") (-3)
                     (FluentFinder.Callable "visibility_of_element_located" true)
                     Ht eq_refl))).
Defined.

(** X11. The two methods differ only in their default condition: called
    with the same arguments, among them a condition object that is true,
    [find_element] and [find_elements] make the same wait call and return
    the same result. *)
Theorem find_methods_agree_on_supplied_condition {WebDriver Result : Type}
    (until : @FluentFinder.wait_call WebDriver -> Result)
    (self : FluentFinder.t) (locator_tuple : string * string)
    (timeout : option Z) (cond : FluentFinder.condition) :
  FluentFinder.condition_truth cond = true ->
  snd (FluentFinder.find_element until self locator_tuple timeout (Some cond)) =
  snd (FluentFinder.find_elements until self locator_tuple timeout (Some cond)).
Proof.
  intros H. unfold FluentFinder.find_element, FluentFinder.find_elements,
    FluentFinder.condition_or. simpl. now rewrite H.
Qed.

Lemma find_methods_agree_on_supplied_condition_witness :
  snd (FluentFinder.find_element (fun call => call)
         {| FluentFinder.webdriver := "session";
            FluentFinder.default_timeout := 5 |}
         ("css selector", "li") None
         (Some FluentFinder.presence_of_all_elements_located)) =
  snd (FluentFinder.find_elements (fun call => call)
         {| FluentFinder.webdriver := "session";
            FluentFinder.default_timeout := 5 |}
         ("css selector", "li") None
         (Some FluentFinder.presence_of_all_elements_located)).
Proof.
  exact (find_methods_agree_on_supplied_condition (fun call => call)
           {| FluentFinder.webdriver := "session";
              FluentFinder.default_timeout := 5 |}
           ("css selector", "li") None
           FluentFinder.presence_of_all_elements_located eq_refl).
Defined.

(** X12. A finder whose default timeout is not 0 never waits with the
    timeout 0, whatever timeout and condition the call supplies. *)
Theorem find_never_waits_zero {WebDriver : Type}
    (self : @FluentFinder.t WebDriver) (locator_tuple : string * string)
    (timeout : option Z) (cond : option FluentFinder.condition) :
  FluentFinder.default_timeout self <> 0 ->
  FluentFinder.wait_timeout
    (snd (FluentFinder.find_element (fun call => call) self locator_tuple
            timeout cond)) <> 0 /\
  FluentFinder.wait_timeout
    (snd (FluentFinder.find_elements (fun call => call) self locator_tuple
            timeout cond)) <> 0.
Proof.
  intros H. unfold FluentFinder.find_element, FluentFinder.find_elements,
    FluentFinder.timeout_or, FluentFinder.int_truth. simpl.
  destruct timeout as [n|]; [|tauto].
  destruct (Z.eqb_spec n 0); simpl; tauto.
Qed.

Lemma find_never_waits_zero_witness :
  FluentFinder.wait_timeout
    (snd (FluentFinder.find_element (fun call => call)
            {| FluentFinder.webdriver := "session";
               FluentFinder.default_timeout := 5 |}
            ("id", "x") (Some 0) None)) <> 0.
Proof.
  refine (proj1 (find_never_waits_zero
                   {| FluentFinder.webdriver := "session";
                      FluentFinder.default_timeout := 5 |}
                   ("id", "x") (Some 0) None _)).
  discriminate.
Defined.

Section FinderLogFacts.

Import FinderLog.

Context {WebDriver : Type}.

Lemma init_all_state (args : list (WebDriver * Z)) :
  forall st : state,
    manager_disable (snd (init_all args st)) = manager_disable st /\
    root_level (snd (init_all args st)) = root_level st /\
    root_handlers (snd (init_all args st)) = root_handlers st /\
    handlers (abs_finder (snd (init_all args st))) =
      (handlers (abs_finder st)
       ++ repeat StreamHandler_stdout (List.length args))%list /\
    disabled (abs_finder (snd (init_all args st))) = disabled (abs_finder st) /\
    propagate (abs_finder (snd (init_all args st))) =
      propagate (abs_finder st) /\
    filters (abs_finder (snd (init_all args st))) = filters (abs_finder st) /\
    stdout (snd (init_all args st)) = stdout st /\
    (args <> [] -> level (abs_finder (snd (init_all args st))) = DEBUG).
Proof.
  induction args as [|[webdriver default_timeout] args IH]; intros st.
  - simpl. rewrite List.app_nil_r. repeat split; auto. congruence.
  - simpl. destruct (init_all args (Finder_init st)) as [finders st2] eqn:E.
    specialize (IH (Finder_init st)). rewrite E in IH. simpl in *.
    destruct IH as (Hm & Hr & Hrh & Hh & Hd & Hp & Hf & Ho & Hl).
    repeat split; auto.
    + rewrite Hh, <- List.app_assoc. reflexivity.
    + intros _. destruct args as [|a args]; [|apply Hl; discriminate].
      simpl in E. injection E as _ <-. reflexivity.
Qed.

Lemma handlers_write_count (line : FluentFinder.log_record) (hs : list handler) :
  handlers_write line hs =
    repeat line (List.length (List.filter (handler_writes line) hs)).
Proof.
  unfold handlers_write.
  induction hs as [|h hs IH]; simpl; [reflexivity|].
  destruct (handler_writes line h); simpl; rewrite IH; reflexivity.
Qed.

Lemma writing_stream_handlers (line : FluentFinder.log_record) (n : nat) :
  List.length
    (List.filter (handler_writes line) (repeat StreamHandler_stdout n)) = n.
Proof.
  induction n as [|n IH]; simpl; [reflexivity|].
  now rewrite IH.
Qed.

(** the debug call of a finder, after one or more finders were constructed *)
Lemma debug_after_init_all (args : list (WebDriver * Z)) (st : state)
    (line : FluentFinder.log_record) :
  args <> [] ->
  stdout (debug line (snd (init_all args st))) =
    if reaches_handlers line st
    then (stdout st
          ++ repeat line (writing_handlers line st + List.length args))%list
    else stdout st.
Proof.
  intros Hne.
  destruct (init_all_state args st)
    as (Hm & _ & Hrh & Hh & Hd & Hp & Hf & Ho & Hl).
  specialize (Hl Hne).
  unfold debug, isEnabledFor, effective_level, reaches_handlers,
    writing_handlers, called_handlers.
  rewrite Hl, Hm, Hd, Hf.
  change (DEBUG =? NOTSET) with false. cbv iota.
  change (DEBUG >=? DEBUG) with true. rewrite andb_true_r.
  destruct (negb (disabled (abs_finder st))
            && negb (manager_disable st >=? DEBUG)
            && passes (filters (abs_finder st)) line); [|exact Ho].
  cbn [stdout]. rewrite Ho, Hh, Hp, Hrh, handlers_write_count.
  do 2 f_equal.
  rewrite !List.filter_app, !List.length_app, writing_stream_handlers.
  lia.
Qed.

End FinderLogFacts.

(** X13. The finders share one logger; each construction adds to it a
    handler on standard output that accepts every level and sets its level
    to [DEBUG]. Once one or more finders have been constructed, a call of
    [find_element] or [find_elements] on any finder writes its debug line
    to standard output once for each finder constructed plus once for each
    other handler called (those on the logger before, and those of the
    root logger when the logger propagates) that writes to standard
    output, has a level of at most [DEBUG] and filters that accept the
    line; it writes nothing when the logger is disabled, when
    [logging.disable] is at [DEBUG] or above, or when a filter of the
    logger rejects the line. This is so whether the call of the condition
    raises afterwards or not. *)
Theorem find_logs_once_per_constructed_finder {WebDriver Result : Type}
    (lib : FluentFinder.conditions_are)
    (until : @FluentFinder.wait_call WebDriver -> Result)
    (args : list (WebDriver * Z)) (st : FinderLog.state)
    (self : FluentFinder.t) (locator_tuple : string * string)
    (timeout : option Z) (cond : option FluentFinder.condition) :
  args <> [] ->
  let line_one :=
    fst (FluentFinder.find_element until self locator_tuple timeout cond) in
  let line_all :=
    fst (FluentFinder.find_elements until self locator_tuple timeout cond) in
  FinderLog.stdout
    (snd (FinderLog.find_element lib until self locator_tuple timeout cond
            (snd (FinderLog.init_all args st)))) =
    (if FinderLog.reaches_handlers line_one st
     then (FinderLog.stdout st
           ++ repeat line_one
                (FinderLog.writing_handlers line_one st + List.length args))%list
     else FinderLog.stdout st) /\
  FinderLog.stdout
    (snd (FinderLog.find_elements lib until self locator_tuple timeout cond
            (snd (FinderLog.init_all args st)))) =
    (if FinderLog.reaches_handlers line_all st
     then (FinderLog.stdout st
           ++ repeat line_all
                (FinderLog.writing_handlers line_all st + List.length args))%list
     else FinderLog.stdout st).
Proof.
  intros Hne line_one line_all.
  split.
  - exact (debug_after_init_all args st line_one Hne).
  - exact (debug_after_init_all args st line_all Hne).
Qed.

Lemma find_logs_once_per_constructed_finder_witness :
  List.length
    (FinderLog.stdout
       (snd (FinderLog.find_element FluentFinder.Functions (fun call => call)
               {| FluentFinder.webdriver := "first";
                  FluentFinder.default_timeout := 5 |}
               ("id", "x") None None
               (snd (FinderLog.init_all [("first", 5); ("second", 7)]
                       Examples.logging_before))))) = 4%nat.
Proof.
  assert (Hne : [("first", 5); ("second", 7)] <> @nil (string * Z))
    by discriminate.
  destruct (find_logs_once_per_constructed_finder FluentFinder.Functions
              (fun call => call)
              [("first", 5); ("second", 7)]
              Examples.logging_before
              {| FluentFinder.webdriver := "first";
                 FluentFinder.default_timeout := 5 |}
              ("id", "x") None None Hne) as [H _].
  rewrite H. reflexivity.
Defined.

(** X14. The strategies have pairwise different string values: two
    different members of [Using] never give the same first component of
    the locator tuple. *)
Theorem Using_value_distinct (u1 u2 : Locator.Using) :
  u1 <> u2 -> Locator.Using_value u1 <> Locator.Using_value u2.
Proof. destruct u1, u2; intros H; try congruence; discriminate. Qed.

Lemma Using_value_distinct_witness :
  Locator.Using_value Locator.CLASS <> Locator.Using_value Locator.CSS.
Proof.
  refine (Using_value_distinct Locator.CLASS Locator.CSS _). discriminate.
Defined.

(** ** A template whose braces are all escaped *)

Section EscapedBraces.

Import Locator Template.

Abbreviation onto_scan := (Spec.scan (fun cursor _ => S cursor) (fun c => c)).

(** [scan_field] for a name that may hold opening braces *)
Lemma scan_field_open_name (fuel : nat) (done pfx name more : string) :
  contains "{" pfx = false ->
  contains "}" (str_drop 1 pfx) = false ->
  contains "}" name = false ->
  onto_scan (S fuel) (done ++ pfx ++ placeholder name ++ more)
    (String.length done) =
  name :: onto_scan fuel (done ++ pfx ++ placeholder name ++ more)
            (String.length done + String.length pfx + S (String.length name)).
Proof.
  intros Hpo Hpc Hnc. simpl Spec.scan.
  rewrite next_index_app_at, next_index_app_after.
  rewrite first_close_after by assumption.
  rewrite first_index_app. apply first_index_none in Hpo. rewrite Hpo.
  rewrite placeholder_app. simpl.
  destruct (Nat.ltb_spec
              (S (String.length done + (String.length pfx + String.length name)))
              (String.length done + (String.length pfx + 0))); [lia|].
  f_equal.
  - replace (done ++ pfx ++ String "{" (name ++ String "}" more))
      with ((done ++ pfx ++ String "{" EmptyString) ++ name ++ String "}" more)
      by (rewrite !str_app_assoc; reflexivity).
    apply between_exact; rewrite !str_app_length; simpl; lia.
  - f_equal. lia.
Qed.

Lemma escaped_as_placeholder (n : string) :
  "{{" ++ n ++ "}}" = placeholder (String "{" n) ++ "}".
Proof.
  rewrite placeholder_app, str_app_cons. reflexivity.
Qed.

Lemma get_parameters_escaped (n : string) :
  contains "}" n = false ->
  get_parameters ("{{" ++ n ++ "}}") = [String "{" n].
Proof.
  intros Hc. rewrite get_parameters_scan. unfold Spec.extract_onto_brace.
  rewrite escaped_as_placeholder.
  assert (Hname : contains "}" (String "{" n) = false) by exact Hc.
  pose proof (scan_field_open_name
                (String.length (placeholder (String "{" n) ++ "}"))
                EmptyString EmptyString (String "{" n) "}"
                eq_refl eq_refl Hname) as E.
  rewrite !str_app_nil in E.
  change (String.length EmptyString) with O in E. rewrite E. f_equal.
  rewrite placeholder_app.
  replace (String "{" (String "{" n ++ String "}" "}"))
    with ((String "{" (String "{" n)) ++ String "}" EmptyString ++ "}")
    by (now rewrite str_app_cons).
  replace (0 + 0 + S (String.length (String "{" n)))%nat
    with (String.length (String "{" (String "{" n))) by (simpl; lia).
  now apply scan_stop.
Qed.

Lemma format_escaped (n : string) (kwargs : gmap string pyobj) :
  brace_free n = true ->
  format ("{{" ++ n ++ "}}") kwargs = Return (String "{" (n ++ "}")).
Proof.
  intros H. unfold format.
  change (format_scan kwargs InLiteral ("{{" ++ n ++ "}}"))
    with (emit "{" (format_scan kwargs InLiteral (n ++ "}}"))).
  now rewrite format_scan_literal.
Qed.

End EscapedBraces.

(** X15. A template whose braces are all escaped for [format], text
    without braces between a doubled opening and a doubled closing brace,
    is still taken as parameterised: the extractor yields one name, an
    opening brace followed by the text. So [get_by] without keywords raises
    the missing-arguments error, and with a keyword of that name it returns
    the text in single braces, whatever the value of the keyword. *)
Theorem get_by_escaped_braces (u : Locator.Using) (n : string)
    (kwargs : gmap string pyobj) :
  Template.brace_free n = true ->
  Locator.parameters (Locator.init u ("{{" ++ n ++ "}}") None) = [String "{" n] /\
  Locator.get_by (Locator.init u ("{{" ++ n ++ "}}") None) ∅ =
    Raise (ValueError ("get_by method is missing keyword arguments: "
                       ++ repr_list [String "{" n])) /\
  (is_Some (kwargs !! String "{" n) ->
   Locator.get_by (Locator.init u ("{{" ++ n ++ "}}") None) kwargs =
     Return (Locator.Using_value u, String "{" (n ++ "}"))).
Proof.
  intros H. pose proof (brace_free_inv _ H) as [_ Hc].
  assert (Hp : Locator.parameters (Locator.init u ("{{" ++ n ++ "}}") None)
               = [String "{" n]) by (now apply get_parameters_escaped).
  split; [exact Hp|]. split.
  - unfold Locator.get_by, Locator.get_value, Locator.parameterize_value.
    rewrite is_parameterized_true by (rewrite Hp; discriminate).
    now rewrite Hp.
  - intros Hk. rewrite get_by_complete.
    + simpl Locator.value. now rewrite format_escaped.
    + rewrite Hp. discriminate.
    + rewrite Hp. intros p [<-|[]]. exact Hk.
Qed.

Lemma get_by_escaped_braces_witness :
  Locator.parameters (Locator.init Locator.CSS "{{x}}" None) = ["{x"] /\
  Locator.get_by (Locator.init Locator.CSS "{{x}}" None) ∅ =
    Raise (ValueError "get_by method is missing keyword arguments: ['{x']") /\
  Locator.get_by (Locator.init Locator.CSS "{{x}}" None)
    (<["{x" := PyNone]> ∅) = Return ("css selector", "{x}").
Proof.
  destruct (get_by_escaped_braces Locator.CSS "x" (<["{x" := PyNone]> ∅)
              eq_refl) as (H1 & H2 & H3).
  split; [exact H1|]. split; [exact H2|].
  apply H3. vm_compute. eauto.
Defined.
